(** * cvserve: content selection and translation caching

    A shallow embedding of the [cvserve] package (utils.py, bio.py,
    translate.py, and the callers in build.py) together with the
    properties of its deterministic bio selector, its start-date parser,
    its response unwrapping and its single-slot translation cache.

    Conventions of the embedding.
    - A Python [str] is a list of Unicode code points ([N]); literals are
      written as UTF-8 Rocq strings and decoded by [py].
    - A function that can raise returns an [outcome]: a value, a raised
      exception, or a [sys.exit].  [try ... except ValueError] is
      [try_except_ValueError].
    - The CV mapping loaded from YAML is read through a typed record whose
      fields are [option]s: [None] is an absent key, [d.get(k, default)] is
      [get], and [d[k]] is [index], which raises [KeyError] on [None].  A
      key that is present holds a value of the type its readers expect (a
      string, a sequence of strings, a mapping); other YAML values are
      outside the model.
    - Code that touches the environment, the cache file or the remote
      service runs in the state monad [M] over a [World]. *)

From Stdlib Require Import List ZArith NArith Bool String Ascii Lia.
From Stdlib Require Import Permutation Sorted.
Import ListNotations.

Set Implicit Arguments.

(** ** Outcomes of Python code *)

Module Py.

Inductive exn : Type :=
| KeyError (key : string)
| ValueError
| FileNotFoundError
| YAMLError
| APIError.

Inductive outcome (A : Type) : Type :=
| Return (a : A)
| Raise (e : exn)
| Exit (code : Z).

Arguments Return {A} a.
Arguments Raise {A} e.
Arguments Exit {A} code.

Definition bind {A B : Type} (m : outcome A) (k : A -> outcome B) : outcome B :=
  match m with
  | Return a => k a
  | Raise e => Raise e
  | Exit c => Exit c
  end.

(** [try: body  except ValueError: handler] *)
Definition try_except_ValueError {A : Type} (body : outcome A) (handler : outcome A)
  : outcome A :=
  match body with
  | Raise ValueError => handler
  | other => other
  end.

(** [d[k]] on a key that may be absent. *)
Definition index {A : Type} (key : string) (field : option A) : outcome A :=
  match field with
  | Some v => Return v
  | None => Raise (KeyError key)
  end.

(** [d.get(k, default)]. *)
Definition get {A : Type} (field : option A) (default : A) : A :=
  match field with
  | Some v => v
  | None => default
  end.

(** A list comprehension whose element expression may raise: elements are
    evaluated left to right and the first exception aborts. *)
Fixpoint comprehension {A B : Type} (f : A -> outcome B) (l : list A)
  : outcome (list B) :=
  match l with
  | [] => Return []
  | x :: r =>
      bind (f x) (fun y => bind (comprehension f r) (fun ys => Return (y :: ys)))
  end.

End Py.

Import Py.

Declare Scope py_scope.
Delimit Scope py_scope with py.
Notation "x <- m ;; k" := (bind m (fun x => k))
  (at level 100, m at next level, right associativity) : py_scope.
Open Scope py_scope.

(** ** Python strings *)

Module PyStr.

Definition char := N.
Definition str := list char.

(** UTF-8 decoding, used for literals only. *)
Fixpoint utf8_decode (bs : list N) : str :=
  match bs with
  | [] => []
  | b :: r =>
      if (b <? 128)%N then b :: utf8_decode r
      else if (b <? 224)%N then
        match r with
        | b1 :: r1 => ((b - 192) * 64 + (b1 - 128))%N :: utf8_decode r1
        | _ => [65533%N]
        end
      else if (b <? 240)%N then
        match r with
        | b1 :: b2 :: r2 =>
            ((b - 224) * 4096 + (b1 - 128) * 64 + (b2 - 128))%N :: utf8_decode r2
        | _ => [65533%N]
        end
      else
        match r with
        | b1 :: b2 :: b3 :: r3 =>
            ((b - 240) * 262144 + (b1 - 128) * 4096 + (b2 - 128) * 64 + (b3 - 128))%N
              :: utf8_decode r3
        | _ => [65533%N]
        end
  end.

Definition py (s : string) : str :=
  utf8_decode (map N_of_ascii (list_ascii_of_string s)).

Definition str_eqb (a b : str) : bool :=
  if list_eq_dec N.eq_dec a b then true else false.

(** [str.isspace] for one code point (the set CPython's
    [_PyUnicode_IsWhitespace] accepts). *)
Definition isspace (c : char) : bool :=
  ((9 <=? c) && (c <=? 13) || (28 <=? c) && (c <=? 32)
   || (c =? 133) || (c =? 160) || (c =? 5760)
   || (8192 <=? c) && (c <=? 8202)
   || (c =? 8232) || (c =? 8233) || (c =? 8239) || (c =? 8287) || (c =? 12288))%N.

(** [str.lower] on the Basic Latin and Latin-1 Supplement blocks, where the
    month vocabulary lives; code points of other blocks are left as they
    are. *)
Definition lower_char (c : char) : char :=
  if ((65 <=? c) && (c <=? 90))%N then (c + 32)%N
  else if ((192 <=? c) && (c <=? 222) && negb (c =? 215))%N then (c + 32)%N
  else c.

Definition lower (s : str) : str := map lower_char s.

Fixpoint lstrip (s : str) : str :=
  match s with
  | c :: r => if isspace c then lstrip r else s
  | [] => []
  end.

Definition rstrip (s : str) : str := rev (lstrip (rev s)).

(** [s.strip()] *)
Definition strip (s : str) : str := rstrip (lstrip s).

(** [s.split()]: the maximal runs of non-whitespace.  [cur] is the run
    being read, most recent code point first. *)
Fixpoint split_ws_from (cur : str) (s : str) : list str :=
  match s with
  | [] => match cur with [] => [] | _ => [rev cur] end
  | c :: r =>
      if isspace c then
        match cur with
        | [] => split_ws_from [] r
        | _ => rev cur :: split_ws_from [] r
        end
      else split_ws_from (c :: cur) r
  end.

Definition split_ws (s : str) : list str := split_ws_from [] s.

Fixpoint startswith (s prefix : str) {struct prefix} : bool :=
  match prefix with
  | [] => true
  | p :: prefix' =>
      match s with
      | c :: s' => (p =? c)%N && startswith s' prefix'
      | [] => false
      end
  end.

Definition endswith (s suffix : str) : bool := startswith (rev s) (rev suffix).

(** [s.split(sep)] for a non-empty [sep]: cut at every occurrence of [sep],
    found left to right without overlap.  [skip] counts the code points of
    a separator just matched that are still to be passed over. *)
Fixpoint split_from (sep : str) (skip : nat) (s : str) : list str :=
  match s with
  | [] => [[]]
  | c :: r =>
      match skip with
      | S k => split_from sep k r
      | O =>
          if startswith s sep then [] :: split_from sep (List.length sep - 1) r
          else
            match split_from sep 0 r with
            | piece :: pieces => (c :: piece) :: pieces
            | [] => [[c]]
            end
      end
  end.

Definition split (s sep : str) : list str := split_from sep 0 s.

(** [sep.join(pieces)] *)
Fixpoint join (sep : str) (pieces : list str) : str :=
  match pieces with
  | [] => []
  | [p] => p
  | p :: rest => p ++ sep ++ join sep rest
  end.

(** [int(s)] in base 10 on ASCII digits: surrounding whitespace, one
    optional sign, digits with single underscores between them.  (CPython
    also reads the decimal digits of other scripts, and refuses literals
    of several thousand digits; here the former are a [ValueError] and
    the latter are read.) *)
Definition digit (c : char) : option Z :=
  if ((48 <=? c) && (c <=? 57))%N then Some (Z.of_N (c - 48)) else None.

Fixpoint digits (acc : Z) (after_digit : bool) (s : str) : option Z :=
  match s with
  | [] => if after_digit then Some acc else None
  | c :: r =>
      match digit c with
      | Some d => digits (10 * acc + d) true r
      | None => if ((c =? 95)%N && after_digit)%bool then digits acc false r else None
      end
  end.

Definition int_literal (s : str) : option Z :=
  match s with
  | [] => None
  | c :: r =>
      if (c =? 45)%N then option_map Z.opp (digits 0 false r)
      else if (c =? 43)%N then digits 0 false r
      else digits 0 false s
  end.

Definition int (s : str) : outcome Z :=
  match int_literal (strip s) with
  | Some z => Return z
  | None => Raise ValueError
  end.

End PyStr.

Import PyStr.

(** ** utils.py *)

Module Utils.

(** [MONTH_MAP], in the order of the dict literal. *)
Definition MONTH_MAP : list (str * Z) :=
  [ (py "january", 1); (py "february", 2); (py "march", 3); (py "april", 4);
    (py "may", 5); (py "june", 6); (py "july", 7); (py "august", 8);
    (py "september", 9); (py "october", 10); (py "november", 11);
    (py "december", 12);
    (py "januar", 1); (py "februar", 2); (py "märz", 3); (py "mai", 5);
    (py "juni", 6); (py "juli", 7); (py "oktober", 10); (py "dezember", 12) ]%Z.

(** [d.get(key, default)] on a dict with string keys. *)
Fixpoint dict_get {V : Type} (d : list (str * V)) (key : str) (default : V) : V :=
  match d with
  | [] => default
  | (k, v) :: rest => if str_eqb k key then v else dict_get rest key default
  end.

Definition parse_start_date (date_str : str) : outcome (Z * Z) :=
  let parts := split_ws (lower (strip date_str)) in
  match parts with
  | [month_str; year_str] =>
      let month := dict_get MONTH_MAP month_str 0%Z in
      year <- try_except_ValueError (int year_str) (Return 0%Z) ;;
      Return (year, month)
  | [only] =>
      try_except_ValueError
        (year <- int only ;; Return (year, 0%Z))
        (Return (0%Z, 0%Z))
  | _ => Return (0%Z, 0%Z)
  end.

End Utils.

Import Utils.

(** ** bio.py: the deterministic selector *)

Module Bio.

(** The keys of the CV mapping the selector reads.  An experience entry,
    an education entry, the skills mapping and the contact mapping are
    mappings of their own. *)
Record Experience : Type := {
  e_title : option str;
  e_org : option str;
  e_start : option str;
  e_end : option str;
  e_bullets : option (list str)
}.

Record Education : Type := {
  degree : option str;
  institution : option str
}.

Record Skills : Type := {
  leadership : option (list str);
  technical : option (list str)
}.

Record Contact : Type := {
  email : option str;
  phone : option str;
  address : option str
}.

Record Link : Type := {
  label : str;
  url : str
}.

Record CV : Type := {
  cv_name : option str;
  cv_title : option str;
  cv_photo : option str;
  cv_contact : option Contact;
  cv_profile : option str;
  cv_experience : option (list Experience);
  cv_skills : option Skills;
  cv_education : option (list Education);
  cv_links : option (list Link)
}.

(** The mapping the selector returns. *)
Record Role : Type := {
  role_title : str;
  role_org : str;
  role_period : str
}.

Record BioContact : Type := {
  bio_email : str;
  bio_phone : str;
  bio_address : str
}.

Record BioData : Type := {
  name : str;
  title : str;
  photo : str;
  contact : BioContact;
  bio_summary : str;
  career_highlights : list str;
  current_roles : list Role;
  education : list str;
  skills_summary : str;
  links : list Link
}.

(** Comparison of the [(year, month)] tuples: lexicographic. *)
Definition key_ltb (a b : Z * Z) : bool :=
  ((fst a <? fst b) || (fst a =? fst b) && (snd a <? snd b))%Z.

(** [sorted(l, key=key, reverse=True)].  The keys are computed once, left
    to right; the result lists the elements by decreasing key and leaves
    elements of equal keys in the order they had in [l].  [insert_desc]
    puts an element in front of the first one whose key is not greater. *)
Fixpoint insert_desc {A : Type} (x : (Z * Z) * A) (l : list ((Z * Z) * A))
  : list ((Z * Z) * A) :=
  match l with
  | [] => [x]
  | y :: r => if key_ltb (fst x) (fst y) then y :: insert_desc x r else x :: l
  end.

Fixpoint sort_desc {A : Type} (l : list ((Z * Z) * A)) : list ((Z * Z) * A) :=
  match l with
  | [] => []
  | x :: r => insert_desc x (sort_desc r)
  end.

Definition sorted_reverse {A : Type} (key : A -> outcome (Z * Z)) (l : list A)
  : outcome (list A) :=
  keyed <- comprehension (fun e => k <- key e ;; Return (k, e)) l ;;
  Return (map snd (sort_desc keyed)).

(** The inner loop over the bullets of one entry: append, then leave the
    loop once five highlights are held. *)
Fixpoint collect_bullets (bullets : list str) (highlights : list str) : list str :=
  match bullets with
  | [] => highlights
  | b :: rest =>
      let highlights := highlights ++ [b] in
      if (5 <=? List.length highlights)%nat then highlights
      else collect_bullets rest highlights
  end.

(** The outer loop over the entries, with the same test after each entry. *)
Fixpoint collect_highlights (entries : list Experience) (highlights : list str)
  : list str :=
  match entries with
  | [] => highlights
  | e :: rest =>
      let highlights := collect_bullets (firstn 2 (get (e_bullets e) [])) highlights in
      if (5 <=? List.length highlights)%nat then highlights
      else collect_highlights rest highlights
  end.

Definition start_key (e : Experience) : outcome (Z * Z) :=
  parse_start_date (get (e_start e) []).

Definition role_of (e : Experience) : outcome Role :=
  t <- index "title" (e_title e) ;;
  s <- index "start" (e_start e) ;;
  en <- index "end" (e_end e) ;;
  Return {| role_title := t;
            role_org := get (e_org e) [];
            role_period := s ++ py " — " ++ en |}.

Definition education_line (e : Education) : outcome str :=
  d <- index "degree" (degree e) ;;
  i <- index "institution" (institution e) ;;
  Return (d ++ py ", " ++ i).

Definition no_skills : Skills := {| leadership := None; technical := None |}.

Definition select_bio_content_deterministic (cv : CV) : outcome BioData :=
  entries <- sorted_reverse start_key (get (cv_experience cv) []) ;;
  current_roles <- comprehension role_of (firstn 3 entries) ;;
  let highlights := collect_highlights (firstn 4 entries) [] in
  let skills := get (cv_skills cv) no_skills in
  let all_skills := get (leadership skills) [] ++ get (technical skills) [] in
  let skills_summary := join (py ", ") (firstn 15 all_skills) in
  education <- comprehension education_line (get (cv_education cv) []) ;;
  let bio_summary := strip (get (cv_profile cv) []) in
  let sentences := split bio_summary (py ". ") in
  let bio_summary := join (py ". ") (firstn 4 sentences) in
  let bio_summary :=
    if endswith bio_summary (py ".") then bio_summary else bio_summary ++ py "." in
  name <- index "name" (cv_name cv) ;;
  title <- index "title" (cv_title cv) ;;
  c <- index "contact" (cv_contact cv) ;;
  email <- index "email" (email c) ;;
  phone <- index "phone" (phone c) ;;
  address <- index "address" (address c) ;;
  Return {| name := name;
            title := title;
            photo := get (cv_photo cv) [];
            contact := {| bio_email := email; bio_phone := phone; bio_address := address |};
            bio_summary := bio_summary;
            career_highlights := highlights;
            current_roles := current_roles;
            education := education;
            skills_summary := skills_summary;
            links := get (cv_links cv) [] |}.

End Bio.

Import Bio.

(** ** translate.py, the remote selector of bio.py, and their callers *)

Module Translate.

(** One [client.messages.create] call. *)
Record Request : Type := {
  model : str;
  max_tokens : Z;
  content : str
}.

(** What the code reads and writes outside itself: whether [import
    anthropic] succeeds, the environment variable, the text of
    [CACHE_FILE] ([None] when the file does not exist), and the requests
    sent to the remote service so far, oldest first. *)
Record World : Type := {
  anthropic_installed : bool;
  ANTHROPIC_API_KEY : option str;
  cache_file : option str;
  requests : list Request
}.

Definition M (A : Type) : Type := World -> outcome A * World.

Definition ret {A : Type} (a : A) : M A := fun w => (Return a, w).

Definition stop {A : Type} (o : outcome A) : M A := fun w => (o, w).

Definition bindM {A B : Type} (m : M A) (k : A -> M B) : M B :=
  fun w =>
    match m w with
    | (Return a, w') => k a w'
    | (Raise e, w') => (Raise e, w')
    | (Exit c, w') => (Exit c, w')
    end.

Notation "x <-- m ;; k" := (bindM m (fun x => k))
  (at level 100, m at next level, right associativity).

Definition nl : str := [10%N].

Definition fence : str := py "```".

(** [if not api_key]: an unset or empty variable. *)
Definition truthy (v : option str) : bool :=
  match v with
  | Some (_ :: _) => true
  | _ => false
  end.

(** The unwrapping of a response after [.strip()], as written in
    [translate_cv], [select_bio_content] and [tailor_cv]:
    [[
    if t.startswith(fence): t = nl.join(t.split(nl)[1:])
    if t.endswith(fence):   t = nl.join(t.split(nl)[:-1])
    ]] *)
Definition drop_leading_fence (t : str) : str :=
  if startswith t fence then join nl (tl (split t nl)) else t.

Definition drop_trailing_fence (t : str) : str :=
  if endswith t fence then join nl (removelast (split t nl)) else t.

Definition unwrap_response (text : str) : str :=
  drop_trailing_fence (drop_leading_fence (strip text)).

Definition sonnet : str := py "claude-sonnet-4-5-20250929".

Definition translate_instructions : str :=
  py "Translate the following CV from English to German. "
  ++ py "Return ONLY the translated YAML — no explanation, no code fences. "
  ++ py "Keep the YAML structure and keys exactly the same (keys stay in English). "
  ++ py "Translate all values that are natural language text (descriptions, bullets, titles, skills, etc.). "
  ++ py "Do NOT translate: names, organization names, technology/tool names, URLs, email, phone, dates, "
  ++ py "publication titles, degree program names that are commonly kept in English. "
  ++ py "Use professional German suitable for a senior-level CV. "
  ++ py "Here is the YAML:" ++ nl ++ nl.

Definition bio_instructions : str :=
  py "You are a professional CV consultant. Given a full CV in YAML, produce a condensed "
  ++ py "one-pager bio version." ++ nl ++ nl
  ++ py "Return ONLY valid YAML with this exact structure — no explanation, no code fences:" ++ nl ++ nl
  ++ py "name: <full name>" ++ nl
  ++ py "title: <professional title>" ++ nl
  ++ py "photo: <photo path from original>" ++ nl
  ++ py "contact:" ++ nl
  ++ py "  email: <email>" ++ nl
  ++ py "  phone: <phone>" ++ nl
  ++ py "  address: <city, country>" ++ nl
  ++ py "bio_summary: <3-4 sentences in third person summarizing the person's career, expertise, and value proposition>" ++ nl
  ++ py "career_highlights:" ++ nl
  ++ py "  - <highlight 1>" ++ nl
  ++ py "  - <highlight 2>" ++ nl
  ++ py "  - <highlight 3>" ++ nl
  ++ py "  - <highlight 4>" ++ nl
  ++ py "  - <highlight 5>" ++ nl
  ++ py "current_roles:" ++ nl
  ++ py "  - title: <title>" ++ nl
  ++ py "    org: <org>" ++ nl
  ++ py "    period: <start — end>" ++ nl
  ++ py "  ...(2-3 most recent roles)" ++ nl
  ++ py "education:" ++ nl
  ++ py "  - <degree, institution>" ++ nl
  ++ py "  ..." ++ nl
  ++ py "skills_summary: <comma-separated list of 10-15 key skills>" ++ nl
  ++ py "links:" ++ nl
  ++ py "  - label: <label>" ++ nl
  ++ py "    url: <url>" ++ nl
  ++ py "  ..." ++ nl ++ nl
  ++ py "Rules:" ++ nl
  ++ py "- Do NOT invent content. Only select and condense from the original CV." ++ nl
  ++ py "- Career highlights should be the most impressive, quantifiable achievements." ++ nl
  ++ py "- Current roles = 2-3 most recent experience entries." ++ nl
  ++ py "- Skills summary = most important skills across all categories." ++ nl
  ++ py "- Bio summary should be written in third person, professional tone." ++ nl ++ nl
  ++ py "CV YAML:" ++ nl.

Section Pipeline.

(** The YAML library and the remote service are collaborators: [Doc] is
    the type of parsed YAML values, [yaml_safe_load] answers [None] where
    [yaml.safe_load] raises, and [service] answers the text of the reply to
    a request given the requests that came before it, or [None] where the
    call raises.  [as_cv] reads a loaded mapping through the typed record
    of the selector and [bio_dict] is the mapping the selector builds. *)
Variable Doc : Type.
Variable yaml_dump : Doc -> str.
Variable yaml_safe_load : str -> option Doc.
Variable service : list Request -> Request -> option str.
Variable as_cv : Doc -> CV.
Variable bio_dict : BioData -> Doc.

Definition safe_load (text : str) : M Doc :=
  match yaml_safe_load text with
  | Some d => ret d
  | None => stop (Raise YAMLError)
  end.

(** [CACHE_FILE.exists()] *)
Definition cache_exists (w : World) : bool :=
  match cache_file w with
  | Some _ => true
  | None => false
  end.

(** [load_cv(CACHE_FILE)] *)
Definition load_cv_cache : M Doc :=
  fun w =>
    match cache_file w with
    | Some text => safe_load text w
    | None => (Raise FileNotFoundError, w)
    end.

(** [with open(CACHE_FILE, "w") as f: yaml.dump(doc, f, ...)] *)
Definition write_cache (doc : Doc) : M unit :=
  fun w =>
    (Return tt,
     {| anthropic_installed := anthropic_installed w;
        ANTHROPIC_API_KEY := ANTHROPIC_API_KEY w;
        cache_file := Some (yaml_dump doc);
        requests := requests w |}).

(** [client.messages.create(...)] followed by [.content[0].text] *)
Definition messages_create (rq : Request) : M str :=
  fun w =>
    let w' := {| anthropic_installed := anthropic_installed w;
                 ANTHROPIC_API_KEY := ANTHROPIC_API_KEY w;
                 cache_file := cache_file w;
                 requests := requests w ++ [rq] |} in
    match service (requests w) rq with
    | Some text => (Return text, w')
    | None => (Raise APIError, w')
    end.

Definition translate_request (cv : Doc) : Request :=
  {| model := sonnet;
     max_tokens := 8192;
     content := translate_instructions ++ yaml_dump cv |}.

Definition translate_cv (cv : Doc) (retranslate : bool) : M Doc :=
  fun w =>
    if negb retranslate && cache_exists w then load_cv_cache w
    else if negb (anthropic_installed w) then (Exit 1, w)
    else if negb (truthy (ANTHROPIC_API_KEY w)) then
      if cache_exists w then load_cv_cache w else (Exit 1, w)
    else
      (text <-- messages_create (translate_request cv) ;;
       let translated_yaml := unwrap_response text in
       translated_cv <-- safe_load translated_yaml ;;
       _ <-- write_cache translated_cv ;;
       ret translated_cv) w.

(** [utils.get_anthropic_client] *)
Definition get_anthropic_client : M unit :=
  fun w =>
    if negb (anthropic_installed w) then (Exit 1, w)
    else if negb (truthy (ANTHROPIC_API_KEY w)) then (Exit 1, w)
    else (Return tt, w).

Definition bio_request (cv : Doc) : Request :=
  {| model := sonnet;
     max_tokens := 4096;
     content := bio_instructions ++ yaml_dump cv |}.

Definition select_bio_content (cv : Doc) : M Doc :=
  _ <-- get_anthropic_client ;;
  text <-- messages_create (bio_request cv) ;;
  let bio_yaml := unwrap_response text in
  safe_load bio_yaml.

(** The [bio] command up to the document it hands to [build_bio_docx]. *)
Definition bio (lang : str) (cv_en : Doc) : M Doc :=
  fun w =>
    (bio_data <--
       (if truthy (ANTHROPIC_API_KEY w) then select_bio_content cv_en
        else stop (b <- select_bio_content_deterministic (as_cv cv_en) ;;
                   Return (bio_dict b))) ;;
     if str_eqb lang (py "de") then translate_cv bio_data true
     else ret bio_data) w.

(** [do_build] of the [build] command: the documents handed to
    [build_docx], one per language. *)
Fixpoint do_build (langs : list str) (retranslate : bool) (cv_en : Doc)
  : M (list (Doc * str)) :=
  match langs with
  | [] => ret []
  | l :: rest =>
      cv <-- (if str_eqb l (py "de") then translate_cv cv_en retranslate
              else ret cv_en) ;;
      outputs <-- do_build rest retranslate cv_en ;;
      ret ((cv, l) :: outputs)
  end.

End Pipeline.

End Translate.

Import Translate.

(** ** tailor.py, build.py and the single-file cvserve.py *)

Module Commands.

(** [str.upper] on the Basic Latin and Latin-1 Supplement blocks (the
    sharp s becomes two letters, and two letters leave the block); code
    points of other blocks are left as they are. *)
Definition upper_char (c : char) : str :=
  if ((97 <=? c) && (c <=? 122))%N then [(c - 32)%N]
  else if ((224 <=? c) && (c <=? 254) && negb (c =? 247))%N then [(c - 32)%N]
  else if (c =? 223)%N then [83; 83]%N
  else if (c =? 255)%N then [376%N]
  else if (c =? 181)%N then [924%N]
  else [c].

Definition upper (s : str) : str := flat_map upper_char s.

(** [l[:n]], also for a negative [n]. *)
Definition slice_to {A : Type} (l : list A) (n : Z) : list A :=
  if (n <? 0)%Z then firstn (List.length l - Z.to_nat (- n)) l
  else firstn (Z.to_nat n) l.

Definition underscore : char := 95%N.

Definition hyphen : char := 45%N.

(** [re.sub(r"[\s_]+", "_", text)]: every maximal run of whitespace and
    underscores becomes one underscore.  [in_run] says that the code point
    before was part of such a run. *)
Fixpoint underscore_runs (in_run : bool) (text : str) : str :=
  match text with
  | [] => []
  | c :: r =>
      if isspace c || (c =? underscore)%N then
        if in_run then underscore_runs true r
        else underscore :: underscore_runs true r
      else c :: underscore_runs false r
  end.

(** [s.lstrip("_")] and [s.strip("_")] *)
Fixpoint lstrip_underscores (s : str) : str :=
  match s with
  | c :: r => if (c =? underscore)%N then lstrip_underscores r else s
  | [] => []
  end.

Definition strip_underscores (s : str) : str :=
  rev (lstrip_underscores (rev (lstrip_underscores s))).

Definition tailor_instructions : str :=
  py "You are a professional CV consultant. Given a CV in YAML format and a project/job description, "
  ++ py "produce a tailored version of the CV that highlights the most relevant experience and skills."
  ++ nl ++ nl
  ++ py "Rules:" ++ nl
  ++ py "- Return ONLY the tailored YAML — no explanation, no code fences." ++ nl
  ++ py "- Keep the exact same YAML structure and keys." ++ nl
  ++ py "- Do NOT invent, fabricate, or add any new content that isn't in the original CV." ++ nl
  ++ py "- Rewrite the profile summary to emphasize relevance to the description." ++ nl
  ++ py "- Reorder the experience entries so the most relevant ones come first." ++ nl
  ++ py "- For each experience entry, you may reorder bullets to foreground relevant ones." ++ nl
  ++ py "- You may slightly rephrase bullets to better highlight relevance, but do not change facts." ++ nl
  ++ py "- Keep all experience entries — do not remove any." ++ nl
  ++ py "- Reorder skills to foreground the most relevant ones." ++ nl
  ++ py "- Keep education, certifications, publications, volunteering, and references unchanged."
  ++ nl ++ nl.

Section CommandDefs.

(** [alnum] is the class of alphanumeric code points on which the [re]
    module builds its word class: a word character is an alphanumeric one
    or the underscore. *)
Variable Doc : Type.
Variable yaml_dump : Doc -> str.
Variable yaml_safe_load : str -> option Doc.
Variable service : list Request -> Request -> option str.
Variable alnum : char -> bool.

Definition word (c : char) : bool := alnum c || (c =? underscore)%N.

(** [re.sub(r"[^\w\s-]", "", text)] *)
Definition drop_punctuation (text : str) : str :=
  filter (fun c => word c || isspace c || (c =? hyphen)%N) text.

Definition _slugify (text : str) (max_len : Z) : str :=
  let slug := drop_punctuation (lower text) in
  let slug := strip_underscores (underscore_runs false slug) in
  slice_to slug max_len.

Definition tailor_request (cv : Doc) (description_text : str) : Request :=
  {| model := sonnet;
     max_tokens := 8192;
     content := tailor_instructions
                ++ py "PROJECT/JOB DESCRIPTION:" ++ nl ++ description_text ++ nl ++ nl
                ++ py "CV YAML:" ++ nl ++ yaml_dump cv |}.

Definition tailor_cv (cv : Doc) (description_text : str) : M Doc :=
  _ <-- get_anthropic_client ;;
  text <-- messages_create service (tailor_request cv description_text) ;;
  let tailored_yaml := unwrap_response text in
  safe_load yaml_safe_load tailored_yaml.

(** The [tailor] command on the loaded source [cv_en], up to the document
    it hands to [build_docx] and the file name it renames the output to;
    the rendering between the two is not part of the model.
    [description_file] is the text of the description file, [None] when
    the file does not exist, and [stem] is the stem of its name. *)
Definition tailor (description_file : option str) (stem : str) (lang : str)
  (cv_en : Doc) : M (Doc * str) :=
  match description_file with
  | None => stop (Exit 1)
  | Some text =>
      let description_text := strip text in
      match description_text with
      | [] => stop (Exit 1)
      | _ :: _ =>
          tailored_cv <-- tailor_cv cv_en description_text ;;
          tailored_cv <--
            (if str_eqb lang (py "de")
             then translate_cv yaml_dump yaml_safe_load service tailored_cv true
             else ret tailored_cv) ;;
          let slug := _slugify stem 30 in
          let tailored_filename :=
            py "Fayssal_El_Mofatiche_CV_" ++ upper lang ++ py "_tailored_"
            ++ slug ++ py ".docx" in
          ret (tailored_cv, tailored_filename)
      end
  end.

(** The [build] command up to its first [do_build()]. *)
Definition build (lang : option str) (retranslate : bool) (cv_en : Doc)
  : M (list (Doc * str)) :=
  let langs :=
    match lang with
    | Some (c :: r) => [c :: r]
    | _ => [py "en"; py "de"]
    end in
  do_build yaml_dump yaml_safe_load service langs retranslate cv_en.

(** [translate_cv] of the single-file cvserve.py, which takes [use_cache]
    where the package takes [retranslate]. *)
Definition legacy_translate_cv (cv : Doc) (use_cache : bool) : M Doc :=
  fun w =>
    if use_cache && cache_exists w then load_cv_cache yaml_safe_load w
    else if negb (anthropic_installed w) then (Exit 1, w)
    else if negb (truthy (ANTHROPIC_API_KEY w)) then (Exit 1, w)
    else
      (text <-- messages_create service (translate_request yaml_dump cv) ;;
       let translated_yaml := unwrap_response text in
       translated_cv <-- safe_load yaml_safe_load translated_yaml ;;
       _ <-- write_cache yaml_dump translated_cv ;;
       ret translated_cv) w.

(** [main] of the single-file cvserve.py up to the document it hands to
    [build_docx]. *)
Definition legacy_main (lang : str) (cache : bool) (cv : Doc) : M Doc :=
  if str_eqb lang (py "de") then legacy_translate_cv cv cache else ret cv.

End CommandDefs.

End Commands.

Import Commands.

(** ** Notions used in the statements *)

(** The sort key of an entry as a value ([parse_start_date] never raises,
    see [parse_start_date_total]). *)
Definition key_of (e : Experience) : Z * Z :=
  match start_key e with
  | Return k => k
  | _ => (0, 0)%Z
  end.

Definition keyed (entries : list Experience) : list ((Z * Z) * Experience) :=
  map (fun e => (key_of e, e)) entries.

(** The experience entries of a CV in the order the selector scans them. *)
Definition date_sorted (cv : CV) : list Experience :=
  map snd (sort_desc (keyed (get (cv_experience cv) []))).

Definition key_eqb (a b : Z * Z) : bool :=
  ((fst a =? fst b) && (snd a =? snd b))%Z.

(** [a] may stand before [b]: the key of [a] is not below the key of [b]. *)
Definition not_older (a b : Experience) : Prop :=
  key_ltb (key_of a) (key_of b) = false.

(** The entries of one key, in the order of the list. *)
Definition with_key (k : Z * Z) (l : list Experience) : list Experience :=
  filter (fun e => key_eqb (key_of e) k) l.

(** The same two notions on the keyed elements [sort_desc] works on. *)
Definition fst_not_older {A : Type} (x y : (Z * Z) * A) : Prop :=
  key_ltb (fst x) (fst y) = false.

Definition fst_has_key {A : Type} (k : Z * Z) (x : (Z * Z) * A) : bool :=
  key_eqb (fst x) k.

(** The bullets an entry contributes to the highlights. *)
Definition top_bullets (e : Experience) : list str :=
  firstn 2 (get (e_bullets e) []).

(** The tokens the start-date parser works on. *)
Definition tokens (date_str : str) : list str :=
  split_ws (lower (strip date_str)).

(** No year can be read from a start period: it is not one token or two
    tokens of which the last is an integer literal. *)
Definition unparseable (date_str : str) : Prop :=
  match tokens date_str with
  | [_; year_str] => int year_str = Raise ValueError
  | [only] => int only = Raise ValueError
  | _ => True
  end.

(** "Sort as the oldest": no entry has a key below that of an entry whose
    start period yields no year. *)
Definition undated_have_least_key (entries : list Experience) : Prop :=
  forall e1 e2,
    In e1 entries -> In e2 entries ->
    unparseable (get (e_start e1) []) ->
    key_ltb (key_of e2) (key_of e1) = false.

(** What [current_roles] shows of an entry. *)
Definition projects_to (e : Experience) (r : Role) : Prop :=
  e_title e = Some (role_title r)
  /\ role_org r = get (e_org e) []
  /\ exists s en, e_start e = Some s /\ e_end e = Some en
                  /\ role_period r = s ++ py " — " ++ en.

(** The skills line of the bio. *)
Definition skills_line (cv : CV) : str :=
  let skills := get (cv_skills cv) no_skills in
  join (py ", ") (firstn 15 (get (leadership skills) [] ++ get (technical skills) [])).

(** The rule of the bio summary on a given text: the first four segments
    between the separators, joined again, closed by a period. *)
Definition first_four_sentences (text : str) : str :=
  let joined := join (py ". ") (firstn 4 (split text (py ". "))) in
  if endswith joined (py ".") then joined else joined ++ py ".".

(** A response wrapped in a fenced code block with language tag [tag]. *)
Definition fenced (tag body : str) : str :=
  fence ++ tag ++ nl ++ body ++ nl ++ fence.

(** The world with the cache file replaced. *)
Definition set_cache (file : option str) (w : World) : World :=
  {| anthropic_installed := anthropic_installed w;
     ANTHROPIC_API_KEY := ANTHROPIC_API_KEY w;
     cache_file := file;
     requests := requests w |}.

(** The world after one more request was sent. *)
Definition sent (rq : Request) (w : World) : World :=
  {| anthropic_installed := anthropic_installed w;
     ANTHROPIC_API_KEY := ANTHROPIC_API_KEY w;
     cache_file := cache_file w;
     requests := requests w ++ [rq] |}.

(** What [load_cv] makes of a file's text. *)
Definition loaded {Doc : Type} (yaml_safe_load : str -> option Doc) (text : str)
  : outcome Doc :=
  match yaml_safe_load text with
  | Some d => Return d
  | None => Raise YAMLError
  end.

(** The CV with its experience section replaced. *)
Definition with_experience (entries : option (list Experience)) (cv : CV) : CV :=
  {| cv_name := cv_name cv; cv_title := cv_title cv; cv_photo := cv_photo cv;
     cv_contact := cv_contact cv; cv_profile := cv_profile cv;
     cv_experience := entries; cv_skills := cv_skills cv;
     cv_education := cv_education cv; cv_links := cv_links cv |}.

(** The keys the selector reads by subscript. *)
Definition subscripted_keys : list string :=
  ["title"; "start"; "end"; "degree"; "institution";
   "name"; "contact"; "email"; "phone"; "address"]%string.

(** An outcome that is a value or a [KeyError] on one of those keys. *)
Definition value_or_key_error {A : Type} (o : outcome A) : Prop :=
  match o with
  | Return _ => True
  | Raise (KeyError k) => In k subscripted_keys
  | _ => False
  end.

(** What the selector needs of a CV. *)
Definition selectable (cv : CV) : Prop :=
  cv_name cv <> None /\ cv_title cv <> None
  /\ (exists c, cv_contact cv = Some c
                /\ email c <> None /\ phone c <> None /\ address c <> None)
  /\ (forall e, In e (firstn 3 (date_sorted cv)) ->
                e_title e <> None /\ e_start e <> None /\ e_end e <> None)
  /\ (forall d, In d (get (cv_education cv) []) ->
                degree d <> None /\ institution d <> None).

(** No underscore next to an underscore. *)
Fixpoint single_underscores (s : str) : bool :=
  match s with
  | a :: (b :: _) as r =>
      negb ((a =? underscore)%N && (b =? underscore)%N) && single_underscores r
  | _ => true
  end.

(** The characters a slug is made of. *)
Definition slug_char (alnum : char -> bool) (c : char) : Prop :=
  isspace c = false
  /\ (alnum c || (c =? underscore)%N || (c =? hyphen)%N) = true.

(** What a request to the remote service comes to: the service fails, its
    unwrapped answer does not parse, or the parsed document is returned
    after [finish] has had its turn on the world. *)
Definition remote_round {Doc : Type} (yaml_safe_load : str -> option Doc)
  (service : list Request -> Request -> option str) (rq : Request)
  (finish : Doc -> World -> World) (w : World) : outcome Doc * World :=
  match service (requests w) rq with
  | None => (Raise APIError, sent rq w)
  | Some text =>
      match yaml_safe_load (unwrap_response text) with
      | None => (Raise YAMLError, sent rq w)
      | Some d => (Return d, finish d (sent rq w))
      end
  end.

Ltac key_listed := unfold subscripted_keys; simpl; tauto.

Ltac key_arith :=
  unfold fst_not_older, fst_has_key, key_ltb, key_eqb in *;
  repeat match goal with
         | p : (Z * Z)%type |- _ => destruct p
         end;
  simpl fst in *; simpl snd in *;
  rewrite ?orb_true_iff, ?orb_false_iff, ?andb_true_iff, ?andb_false_iff,
    ?Z.ltb_lt, ?Z.ltb_ge, ?Z.eqb_eq, ?Z.eqb_neq in *;
  lia.

(** ** Sample data *)

Definition mk_entry (t s e : string) (bullets : list string) : Experience :=
  {| e_title := Some (py t); e_org := None; e_start := Some (py s);
     e_end := Some (py e); e_bullets := Some (map py bullets) |}.

(** An entry with nothing but a title and, possibly, its two dates. *)
Definition bare_entry (t : string) (s e : option string) : Experience :=
  {| e_title := Some (py t); e_org := None; e_start := option_map py s;
     e_end := option_map py e; e_bullets := None |}.

(** Name, title and contact, with the given summary and entries. *)
Definition mk_cv (profile : option str) (entries : option (list Experience)) : CV :=
  {| cv_name := Some (py "N"); cv_title := Some (py "T"); cv_photo := None;
     cv_contact := Some {| email := Some (py "e@x"); phone := Some (py "1");
                           address := Some (py "Berlin") |};
     cv_profile := profile; cv_experience := entries; cv_skills := None;
     cv_education := None; cv_links := None |}.

Definition five (tag : string) : list string :=
  [tag ++ ".1"; tag ++ ".2"; tag ++ ".3"; tag ++ ".4"; tag ++ ".5"]%string.

(** Ten entries of five bullets each. *)
Definition ten_entries : list Experience :=
  [ mk_entry "E0" "2010" "2011" (five "E0");
    mk_entry "E1" "March 2021" "today" (five "E1");
    mk_entry "E2" "2019" "2020" (five "E2");
    mk_entry "E3" "Mai 2021" "today" (five "E3");
    mk_entry "E4" "January 2015" "2016" (five "E4");
    mk_entry "E5" "gibberish" "2000" (five "E5");
    mk_entry "E6" "2012" "2013" (five "E6");
    mk_entry "E7" "Juni 2018" "2019" (five "E7");
    mk_entry "E8" "2011" "2012" (five "E8");
    mk_entry "E9" "2013" "2014" (five "E9") ].

Definition cv_ten : CV := mk_cv None (Some ten_entries).

(** Entries with equal keys: A and C, B and D. *)
Definition tied_entries : list Experience :=
  [ mk_entry "A" "2019" "2020" [];
    mk_entry "B" "March 2021" "today" [];
    mk_entry "C" "2019" "2021" [];
    mk_entry "D" "März 2021" "2022" [];
    mk_entry "E" "gibberish" "2000" [] ].

Definition cv_tied : CV := mk_cv None (Some tied_entries).

Definition undated_first : CV :=
  mk_cv None (Some [ mk_entry "dated" "-1" "0" []; mk_entry "undated" "gibberish" "0" [] ]).

(** Four entries: three dated ones without org and bullets, and one that
    has nothing but a title. *)
Definition cv_sparse : CV :=
  mk_cv None
    (Some [ bare_entry "untimed" None None;
            bare_entry "A" (Some "2019") (Some "2020");
            bare_entry "B" (Some "June 2022") (Some "today");
            bare_entry "C" (Some "2021") (Some "2022") ]%string).

Definition cv_identity_only : CV :=
  {| cv_name := Some (py "N"); cv_title := Some (py "T"); cv_photo := None;
     cv_contact := None; cv_profile := None; cv_experience := None;
     cv_skills := None; cv_education := None; cv_links := None |}.

(** Sample collaborators: documents are their own YAML text, and the
    service answers a bio request with a bare document and a translation
    request with a fenced one. *)
Definition sample_service (history : list Request) (rq : Request) : option str :=
  if (max_tokens rq =? 4096)%Z then Some (py "bio: EN")
  else Some (fenced (py "yaml") (py "bio: DE")).

Definition sample_dump (d : str) : str := d.

Definition sample_load (text : str) : option str := Some text.

Definition sample_world (installed : bool) (key : option str) (cache : option str) : World :=
  {| anthropic_installed := installed;
     ANTHROPIC_API_KEY := key;
     cache_file := cache;
     requests := [] |}.

(** ASCII letters and digits, a sample of the alphanumeric class. *)
Definition ascii_alnum (c : char) : bool :=
  ((48 <=? c) && (c <=? 57) || (65 <=? c) && (c <=? 90) || (97 <=? c) && (c <=? 122))%N.

(** ** Python strings: facts *)

Lemma int_cases (s : str) :
  (exists z, int s = Return z) \/ int s = Raise ValueError.
Proof.
  unfold int. destruct (int_literal (strip s)) as [z|]; [left; now exists z | now right].
Qed.

(** [parse_start_date] returns on every string. *)
Lemma parse_start_date_total (date_str : str) :
  exists k, parse_start_date date_str = Return k.
Proof.
  unfold parse_start_date.
  destruct (split_ws (lower (strip date_str))) as [|a [|b [|c r]]]; eauto.
  - destruct (int_cases a) as [[z ->] | ->]; simpl; eauto.
  - destruct (int_cases b) as [[z ->] | ->]; simpl; eauto.
Qed.

Lemma start_key_value (e : Experience) : start_key e = Return (key_of e).
Proof.
  unfold key_of. destruct (parse_start_date_total (get (e_start e) [])) as [k Hk].
  unfold start_key. now rewrite Hk.
Qed.

(** The month table answers 1..12 on its keys and the default elsewhere. *)
Lemma month_of_known (m : str) :
  In m (map fst MONTH_MAP) -> (1 <= dict_get MONTH_MAP m 0 <= 12)%Z.
Proof.
  intros H. simpl in H.
  repeat (destruct H as [<- | H]; [vm_compute; split; discriminate |]).
  contradiction.
Qed.

Lemma dict_get_absent {V : Type} (d : list (str * V)) (key : str) (default : V) :
  ~ In key (map fst d) -> dict_get d key default = default.
Proof.
  induction d as [|[k v] d IH]; simpl; intros H; [reflexivity|].
  unfold str_eqb. destruct (list_eq_dec N.eq_dec k key) as [->|_].
  - exfalso. apply H. now left.
  - apply IH. intros Hin. apply H. now right.
Qed.

Lemma lstrip_nonspace (c : char) (r : str) :
  isspace c = false -> lstrip (c :: r) = c :: r.
Proof. intros H. simpl. now rewrite H. Qed.

Lemma lstrip_spaces (ws s : str) :
  Forall (fun c => isspace c = true) ws -> lstrip (ws ++ s) = lstrip s.
Proof.
  induction 1 as [|c ws Hc _ IH]; simpl; [reflexivity|]. now rewrite Hc.
Qed.

Lemma rstrip_spaces (ws s : str) :
  Forall (fun c => isspace c = true) ws -> rstrip (s ++ ws) = rstrip s.
Proof.
  intros H. unfold rstrip. rewrite rev_app_distr, lstrip_spaces; [reflexivity|].
  now apply Forall_rev.
Qed.

Lemma rstrip_nonspace (c : char) (s : str) :
  isspace c = false -> rstrip (s ++ [c]) = s ++ [c].
Proof.
  intros H. unfold rstrip. rewrite rev_app_distr.
  change (rev [c] ++ rev s) with (c :: rev s).
  rewrite lstrip_nonspace by assumption.
  simpl. now rewrite rev_involutive.
Qed.

Lemma startswith_app (p x : str) : startswith (p ++ x) p = true.
Proof.
  induction p as [|c p IH]; simpl; [reflexivity|]. now rewrite N.eqb_refl.
Qed.

Lemma startswith_split (s p : str) :
  startswith s p = true -> s = p ++ skipn (List.length p) s.
Proof.
  revert s. induction p as [|c p IH]; intros s H; [reflexivity|].
  destruct s as [|d s]; simpl in H; [discriminate|].
  apply andb_prop in H as [Hc Hp]. apply N.eqb_eq in Hc as ->.
  simpl. f_equal. now apply IH.
Qed.

Lemma endswith_app (x s : str) : endswith (x ++ s) s = true.
Proof. unfold endswith. rewrite rev_app_distr. apply startswith_app. Qed.

Lemma split_from_nonempty (sep : str) (k : nat) (s : str) : split_from sep k s <> [].
Proof.
  revert k. induction s as [|c r IH]; intros k; simpl; [discriminate|].
  destruct k as [|k]; [|apply IH].
  destruct (startswith (c :: r) sep); [discriminate|].
  destruct (split_from sep 0 r); discriminate.
Qed.

(** While a separator is being passed over, the pieces are those of the
    text after it. *)
Lemma split_from_skip (sep : str) (k : nat) (s : str) :
  (k <= List.length s)%nat -> split_from sep k s = split_from sep 0 (skipn k s).
Proof.
  revert s. induction k as [|k IH]; intros s H; [reflexivity|].
  destruct s as [|c r]; simpl in H; [lia|].
  simpl. apply IH. lia.
Qed.

Lemma join_cons_head (sep : str) (c : char) (p : str) (ps : list str) :
  join sep ((c :: p) :: ps) = c :: join sep (p :: ps).
Proof. destruct ps; reflexivity. Qed.

Lemma join_nil_head (sep : str) (ps : list str) :
  ps <> [] -> join sep ([] :: ps) = sep ++ join sep ps.
Proof. destruct ps; [congruence | reflexivity]. Qed.

(** Joining the pieces with the separator gives the text back. *)
Lemma join_split (s sep : str) : sep <> [] -> join sep (split s sep) = s.
Proof.
  intros Hsep. unfold split.
  remember (List.length s) as n eqn:Hn. revert s Hn.
  induction n as [n IH] using lt_wf_ind. intros s Hn.
  destruct s as [|c r]; [reflexivity|].
  simpl split_from. destruct (startswith (c :: r) sep) eqn:Hs.
  - apply startswith_split in Hs.
    destruct sep as [|d sep']; [congruence|].
    simpl in Hs. injection Hs as Hc Hr.
    assert (Hlen : (List.length sep' <= List.length r)%nat).
    { rewrite Hr, length_app. lia. }
    simpl List.length. replace (S (List.length sep') - 1)%nat with (List.length sep') by lia.
    rewrite split_from_skip by assumption.
    rewrite join_nil_head by apply split_from_nonempty.
    rewrite (IH (List.length (skipn (List.length sep') r))).
    + subst c. simpl. f_equal. symmetry. exact Hr.
    + rewrite length_skipn. simpl in Hn. lia.
    + reflexivity.
  - destruct (split_from sep 0 r) as [|p ps] eqn:Hp.
    + now apply split_from_nonempty in Hp.
    + rewrite join_cons_head. f_equal. rewrite <- Hp.
      apply (IH (List.length r)); [simpl in Hn; lia | reflexivity].
Qed.

(** Splitting at a single code point distributes over concatenation. *)
Lemma split_char_app (c0 : char) (a b : str) :
  split (a ++ c0 :: b) [c0] = split a [c0] ++ split b [c0].
Proof.
  unfold split. induction a as [|c a IH].
  - simpl. now rewrite N.eqb_refl.
  - simpl app. simpl split_from. rewrite IH.
    destruct (c0 =? c)%N; simpl; [reflexivity|].
    destruct (split_from [c0] 0 a) as [|p ps] eqn:Hp; [|reflexivity].
    now apply split_from_nonempty in Hp.
Qed.

Lemma split_char_absent (c0 : char) (a : str) :
  ~ In c0 a -> split a [c0] = [a].
Proof.
  unfold split. induction a as [|c a IH]; intros H; [reflexivity|].
  simpl. destruct (N.eqb_spec c0 c) as [->|_].
  - exfalso. apply H. now left.
  - simpl. rewrite IH; [reflexivity|]. intros Hin. apply H. now right.
Qed.

Lemma fence_codes : fence = [96; 96; 96]%N.
Proof. reflexivity. Qed.

Lemma fence_no_newline : ~ In 10%N fence.
Proof. rewrite fence_codes. simpl. intuition discriminate. Qed.

Lemma strip_between_nonspace (c d : char) (m : str) :
  isspace c = false -> isspace d = false ->
  strip (c :: m ++ [d]) = c :: m ++ [d].
Proof.
  intros Hc Hd. unfold strip. rewrite lstrip_nonspace by assumption.
  change (c :: m ++ [d]) with ((c :: m) ++ [d]). now apply rstrip_nonspace.
Qed.

Lemma fenced_ends (tag body : str) :
  fenced tag body
  = 96%N :: ([96; 96]%N ++ tag ++ nl ++ body ++ nl ++ [96; 96]%N) ++ [96%N].
Proof.
  unfold fenced, nl. rewrite fence_codes, <- !app_assoc. reflexivity.
Qed.

Lemma strip_fenced (tag body : str) : strip (fenced tag body) = fenced tag body.
Proof. rewrite fenced_ends. now apply strip_between_nonspace. Qed.

(** The same with blank lines or spaces around the block. *)
Lemma strip_padded_fenced (before after tag body : str) :
  Forall (fun c => isspace c = true) before ->
  Forall (fun c => isspace c = true) after ->
  strip (before ++ fenced tag body ++ after) = fenced tag body.
Proof.
  intros Hb Ha. unfold strip. rewrite lstrip_spaces by assumption.
  rewrite fenced_ends at 1. rewrite <- app_comm_cons.
  rewrite lstrip_nonspace by reflexivity.
  rewrite app_comm_cons, rstrip_spaces by assumption.
  rewrite app_comm_cons, rstrip_nonspace by reflexivity.
  now rewrite fenced_ends.
Qed.

(** A leading fence line goes, whatever its language tag. *)
Lemma drop_leading_fence_line (tag rest : str) :
  ~ In 10%N tag -> drop_leading_fence (fence ++ tag ++ nl ++ rest) = rest.
Proof.
  intros Htag. unfold drop_leading_fence. rewrite startswith_app.
  replace (fence ++ tag ++ nl ++ rest) with ((fence ++ tag) ++ 10%N :: rest)
    by (now rewrite <- app_assoc).
  unfold nl. rewrite split_char_app, split_char_absent.
  - simpl tl. apply join_split. discriminate.
  - intros Hin. apply in_app_or in Hin as [Hin | Hin]; [now apply fence_no_newline | auto].
Qed.

(** A trailing fence line goes. *)
Lemma drop_trailing_fence_line (rest : str) :
  drop_trailing_fence (rest ++ nl ++ fence) = rest.
Proof.
  unfold drop_trailing_fence.
  rewrite app_assoc, endswith_app, <- app_assoc.
  unfold nl. simpl app. rewrite split_char_app, (@split_char_absent 10%N fence fence_no_newline).
  rewrite removelast_last. apply join_split. discriminate.
Qed.

Lemma drop_leading_fence_none (t : str) :
  startswith t fence = false -> drop_leading_fence t = t.
Proof. unfold drop_leading_fence. now intros ->. Qed.

Lemma drop_trailing_fence_none (t : str) :
  endswith t fence = false -> drop_trailing_fence t = t.
Proof. unfold drop_trailing_fence. now intros ->. Qed.

(** ** [sorted(..., reverse=True)]: permutation, order, stability *)

Section SortFacts.

Variable A : Type.
Implicit Types (x y : (Z * Z) * A) (l : list ((Z * Z) * A)).

Lemma insert_desc_perm x l : Permutation (insert_desc x l) (x :: l).
Proof.
  induction l as [|y l IH]; simpl; [reflexivity|].
  destruct (key_ltb (fst x) (fst y)); [|reflexivity].
  rewrite IH. apply perm_swap.
Qed.

Lemma sort_desc_perm l : Permutation (sort_desc l) l.
Proof.
  induction l as [|x l IH]; simpl; [reflexivity|].
  rewrite insert_desc_perm. now constructor.
Qed.

Lemma insert_desc_sorted x l :
  StronglySorted (@fst_not_older A) l -> StronglySorted (@fst_not_older A) (insert_desc x l).
Proof.
  induction l as [|y l IH]; intros Hs; simpl.
  - repeat constructor.
  - inversion Hs as [|? ? Hl Hy]; subst.
    destruct (key_ltb (fst x) (fst y)) eqn:E.
    + constructor; [now apply IH|].
      apply (Permutation_Forall (Permutation_sym (insert_desc_perm x l))).
      constructor; [|assumption].
      destruct x as [kx ?], y as [ky ?]. simpl in *. key_arith.
    + constructor; [assumption|]. constructor; [exact E|].
      apply (Forall_impl _ (P := fst_not_older y)); [|assumption].
      intros [kz ?] Hz. destruct x as [kx ?], y as [ky ?]. simpl in *. key_arith.
Qed.

Lemma sort_desc_sorted l : StronglySorted (@fst_not_older A) (sort_desc l).
Proof.
  induction l as [|x l IH]; simpl; [constructor | now apply insert_desc_sorted].
Qed.

Lemma insert_desc_filter k x l :
  filter (fst_has_key k) (insert_desc x l) = filter (fst_has_key k) (x :: l).
Proof.
  induction l as [|y l IH]; [reflexivity|].
  simpl insert_desc. destruct (key_ltb (fst x) (fst y)) eqn:E; [|reflexivity].
  simpl filter at 1. rewrite IH. simpl.
  destruct (fst_has_key k x) eqn:Hx, (fst_has_key k y) eqn:Hy; try reflexivity.
  exfalso. destruct x as [kx ?], y as [ky ?]. simpl in *. key_arith.
Qed.

Lemma sort_desc_filter k l :
  filter (fst_has_key k) (sort_desc l) = filter (fst_has_key k) l.
Proof.
  induction l as [|x l IH]; [reflexivity|].
  simpl sort_desc. rewrite insert_desc_filter. simpl. now rewrite IH.
Qed.

End SortFacts.

(** ** The date-sorted entries *)

Lemma key_eqb_eq (a b : Z * Z) : key_eqb a b = true <-> a = b.
Proof.
  destruct a as [a1 a2], b as [b1 b2]. unfold key_eqb. simpl.
  rewrite andb_true_iff, !Z.eqb_eq. split; [intros [-> ->]; reflexivity|].
  intros H. injection H as -> ->. now split.
Qed.

Lemma keyed_fst (entries : list Experience) :
  Forall (fun p => fst p = key_of (snd p)) (keyed entries).
Proof. unfold keyed. apply Forall_forall. intros p Hp. apply in_map_iff in Hp as [e [<- _]]. reflexivity. Qed.

Lemma snd_keyed (entries : list Experience) : map snd (keyed entries) = entries.
Proof. unfold keyed. rewrite map_map. simpl. apply map_id. Qed.

Lemma sorted_keyed_fst (entries : list Experience) :
  Forall (fun p => fst p = key_of (snd p)) (sort_desc (keyed entries)).
Proof.
  apply (Permutation_Forall (Permutation_sym (sort_desc_perm (keyed entries)))).
  apply keyed_fst.
Qed.

Lemma not_older_of_fst (ps : list ((Z * Z) * Experience)) :
  Forall (fun p => fst p = key_of (snd p)) ps ->
  StronglySorted (@fst_not_older Experience) ps ->
  StronglySorted not_older (map snd ps).
Proof.
  intros Hk Hs. induction Hs as [|p ps Hs IH Hp]; simpl; [constructor|].
  inversion Hk as [|? ? Hkp Hkps]; subst.
  constructor; [now apply IH|].
  apply Forall_map. rewrite Forall_forall in *. intros q Hq.
  unfold not_older. rewrite <- Hkp, <- (Hkps q Hq). now apply Hp.
Qed.

Lemma with_key_of_fst (k : Z * Z) (ps : list ((Z * Z) * Experience)) :
  Forall (fun p => fst p = key_of (snd p)) ps ->
  with_key k (map snd ps) = map snd (filter (fst_has_key k) ps).
Proof.
  induction 1 as [|p ps Hp _ IH]; [reflexivity|].
  unfold with_key in *. simpl. unfold fst_has_key at 1. rewrite Hp, IH.
  now destruct (key_eqb (key_of (snd p)) k).
Qed.

Lemma date_sorted_perm (cv : CV) :
  Permutation (date_sorted cv) (get (cv_experience cv) []).
Proof.
  unfold date_sorted. rewrite <- (snd_keyed (get (cv_experience cv) [])) at 2.
  apply Permutation_map, sort_desc_perm.
Qed.

Lemma date_sorted_desc (cv : CV) : StronglySorted not_older (date_sorted cv).
Proof.
  unfold date_sorted. apply not_older_of_fst; [apply sorted_keyed_fst | apply sort_desc_sorted].
Qed.

Lemma date_sorted_stable (cv : CV) (k : Z * Z) :
  with_key k (date_sorted cv) = with_key k (get (cv_experience cv) []).
Proof.
  unfold date_sorted. rewrite with_key_of_fst by apply sorted_keyed_fst.
  rewrite sort_desc_filter, <- with_key_of_fst by apply keyed_fst.
  now rewrite snd_keyed.
Qed.

Lemma with_key_head (a : Experience) (l : list Experience) :
  with_key (key_of a) (a :: l) = a :: with_key (key_of a) l.
Proof.
  unfold with_key. simpl.
  now rewrite (proj2 (key_eqb_eq (key_of a) (key_of a)) eq_refl).
Qed.

Lemma with_key_In (k : Z * Z) (e : Experience) (l : list Experience) :
  In e (with_key k l) -> In e l /\ key_of e = k.
Proof.
  unfold with_key. intros H. apply filter_In in H as [H1 H2].
  split; [assumption | now apply key_eqb_eq].
Qed.

(** Order and stability determine the result: a list that is ordered by
    decreasing key and keeps, key by key, the entries in their original
    order is the list [sorted] returns. *)
Lemma stable_desc_unique (l1 l2 : list Experience) :
  StronglySorted not_older l1 -> StronglySorted not_older l2 ->
  (forall k, with_key k l1 = with_key k l2) -> l1 = l2.
Proof.
  intros H1. revert l2. induction H1 as [|a l1 H1 IH Ha]; intros l2 H2 Hk.
  - destruct l2 as [|b l2]; [reflexivity|].
    specialize (Hk (key_of b)). rewrite with_key_head in Hk. discriminate.
  - destruct l2 as [|b l2].
    { specialize (Hk (key_of a)). rewrite with_key_head in Hk. discriminate. }
    inversion H2 as [|? ? H2' Hb]; subst.
    assert (Hkey : key_of a = key_of b).
    { pose proof (Hk (key_of a)) as Ea. rewrite with_key_head in Ea.
      pose proof (Hk (key_of b)) as Eb. rewrite with_key_head in Eb.
      assert (Ia : In a (with_key (key_of a) (b :: l2))) by (rewrite <- Ea; now left).
      assert (Ib : In b (with_key (key_of b) (a :: l1))) by (rewrite Eb; now left).
      apply with_key_In in Ia as [[->|Ia] _]; [reflexivity|].
      apply with_key_In in Ib as [[->|Ib] _]; [reflexivity|].
      rewrite Forall_forall in Ha, Hb.
      pose proof (Ha b Ib) as Hab. pose proof (Hb a Ia) as Hba.
      unfold not_older in Hab, Hba.
      destruct (key_of a) as [a1 a2], (key_of b) as [b1 b2].
      f_equal; key_arith. }
    pose proof (Hk (key_of a)) as E. rewrite with_key_head in E.
    rewrite Hkey, with_key_head in E. injection E as -> E.
    f_equal. apply IH; [assumption|].
    intros k. specialize (Hk k). unfold with_key in *. simpl in Hk.
    destruct (key_eqb (key_of b) k); [now injection Hk | assumption].
Qed.

Lemma date_sorted_unique (cv : CV) (l : list Experience) :
  StronglySorted not_older l ->
  (forall k, with_key k l = with_key k (get (cv_experience cv) [])) ->
  l = date_sorted cv.
Proof.
  intros Hs Hk. apply stable_desc_unique; [assumption | apply date_sorted_desc |].
  intros k. now rewrite Hk, date_sorted_stable.
Qed.

(** ** The selector, step by step *)

Lemma comprehension_values {A B : Type} (f : A -> outcome B) (g : A -> B) (l : list A) :
  (forall x, f x = Return (g x)) -> comprehension f l = Return (map g l).
Proof.
  intros H. induction l as [|x l IH]; simpl; [reflexivity|]. now rewrite H, IH.
Qed.

Lemma sorted_reverse_value (entries : list Experience) :
  sorted_reverse start_key entries = Return (map snd (sort_desc (keyed entries))).
Proof.
  unfold sorted_reverse.
  rewrite (comprehension_values _ (fun e => (key_of e, e))); [reflexivity|].
  intros e. now rewrite start_key_value.
Qed.

Lemma collect_bullets_firstn (bullets highlights : list str) :
  (List.length highlights < 5)%nat ->
  collect_bullets bullets highlights = firstn 5 (highlights ++ bullets).
Proof.
  revert highlights. induction bullets as [|b rest IH]; intros hl Hlen;
    cbn [collect_bullets].
  - rewrite app_nil_r, firstn_all2; [reflexivity | lia].
  - replace (hl ++ b :: rest) with ((hl ++ [b]) ++ rest) by (now rewrite <- app_assoc).
    assert (Hl : List.length (hl ++ [b]) = S (List.length hl)) by (rewrite length_app; simpl; lia).
    destruct (Nat.leb_spec 5 (List.length (hl ++ [b]))) as [Hge|Hlt].
    + rewrite firstn_app. replace (5 - List.length (hl ++ [b]))%nat with 0%nat by lia.
      rewrite firstn_all2 by lia. simpl. now rewrite app_nil_r.
    + now apply IH.
Qed.

(** The two nested loops compute a prefix of the concatenated bullets. *)
Lemma collect_highlights_firstn (entries : list Experience) (highlights : list str) :
  (List.length highlights < 5)%nat ->
  collect_highlights entries highlights
  = firstn 5 (highlights ++ flat_map top_bullets entries).
Proof.
  revert highlights. induction entries as [|e rest IH]; intros hl Hlen;
    cbn [collect_highlights flat_map].
  - rewrite app_nil_r, firstn_all2; [reflexivity | lia].
  - fold (top_bullets e). rewrite collect_bullets_firstn by assumption.
    rewrite app_assoc.
    destruct (Nat.leb_spec 5 (List.length (firstn 5 (hl ++ top_bullets e)))) as [Hge|Hlt].
    + rewrite length_firstn in Hge.
      rewrite (firstn_app 5 (hl ++ top_bullets e)).
      replace (5 - List.length (hl ++ top_bullets e))%nat with 0%nat by lia.
      simpl. now rewrite app_nil_r.
    + rewrite length_firstn in Hlt.
      rewrite (@firstn_all2 _ 5 (hl ++ top_bullets e)) by lia.
      apply IH. lia.
Qed.

Lemma comprehension_Forall2 {A B : Type} (f : A -> outcome B) (l : list A) (ys : list B) :
  comprehension f l = Return ys <-> Forall2 (fun x y => f x = Return y) l ys.
Proof.
  revert ys. induction l as [|x l IH]; intros ys; simpl.
  - split; [intros [= <-]; constructor | inversion 1; reflexivity].
  - split.
    + destruct (f x) as [y| |] eqn:Hx; simpl; try discriminate.
      destruct (comprehension f l) as [zs| |] eqn:Hl; simpl; try discriminate.
      intros [= <-]. constructor; [assumption | now apply IH].
    + inversion 1 as [|? y ? zs Hx Hl]; subst. rewrite Hx. simpl.
      apply IH in Hl. now rewrite Hl.
Qed.

Lemma role_of_projects (e : Experience) (r : Role) :
  role_of e = Return r <-> projects_to e r.
Proof.
  unfold role_of, projects_to. destruct r as [t o p]. simpl. split.
  - destruct (e_title e) as [t'|]; simpl; try discriminate.
    destruct (e_start e) as [s|]; simpl; try discriminate.
    destruct (e_end e) as [en|]; simpl; try discriminate.
    intros [= -> <- <-]. repeat split. now exists s, en.
  - intros [-> [-> [s [en [-> [-> ->]]]]]]. reflexivity.
Qed.

(** What a returned bio says about the CV it was selected from. *)
Lemma select_inv (cv : CV) (b : BioData) :
  select_bio_content_deterministic cv = Return b ->
  comprehension role_of (firstn 3 (date_sorted cv)) = Return (current_roles b)
  /\ career_highlights b = collect_highlights (firstn 4 (date_sorted cv)) []
  /\ comprehension education_line (get (cv_education cv) []) = Return (education b)
  /\ bio_summary b = first_four_sentences (strip (get (cv_profile cv) []))
  /\ skills_summary b = skills_line cv
  /\ cv_name cv = Some (name b)
  /\ cv_title cv = Some (title b)
  /\ photo b = get (cv_photo cv) []
  /\ links b = get (cv_links cv) []
  /\ exists c, cv_contact cv = Some c
              /\ email c = Some (bio_email (contact b))
              /\ phone c = Some (bio_phone (contact b))
              /\ address c = Some (bio_address (contact b)).
Proof.
  unfold select_bio_content_deterministic. rewrite sorted_reverse_value.
  fold (date_sorted cv). cbn [bind].
  destruct (comprehension role_of (firstn 3 (date_sorted cv))) as [roles| |];
    cbn [bind]; try discriminate.
  destruct (comprehension education_line (get (cv_education cv) [])) as [edu| |];
    cbn [bind]; try discriminate.
  destruct (cv_name cv) as [n|]; cbn [index bind]; try discriminate.
  destruct (cv_title cv) as [ti|]; cbn [index bind]; try discriminate.
  destruct (cv_contact cv) as [c|]; cbn [index bind]; try discriminate.
  destruct (email c) as [em|] eqn:Hem; cbn [index bind]; try discriminate.
  destruct (phone c) as [ph|] eqn:Hph; cbn [index bind]; try discriminate.
  destruct (address c) as [ad|] eqn:Had; cbn [index bind]; try discriminate.
  intros [= <-]. cbn. repeat split. exists c. repeat split; assumption.
Qed.

(** The conditions under which the selector returns, with the bio it returns. *)
Lemma select_returns (cv : CV) (n ti : str) (c : Contact) (em ph ad : str)
  (roles : list Role) (edu : list str) :
  cv_name cv = Some n -> cv_title cv = Some ti -> cv_contact cv = Some c ->
  email c = Some em -> phone c = Some ph -> address c = Some ad ->
  comprehension role_of (firstn 3 (date_sorted cv)) = Return roles ->
  comprehension education_line (get (cv_education cv) []) = Return edu ->
  select_bio_content_deterministic cv
  = Return {| name := n; title := ti; photo := get (cv_photo cv) [];
              contact := {| bio_email := em; bio_phone := ph; bio_address := ad |};
              bio_summary := first_four_sentences (strip (get (cv_profile cv) []));
              career_highlights := collect_highlights (firstn 4 (date_sorted cv)) [];
              current_roles := roles;
              education := edu;
              skills_summary := skills_line cv;
              links := get (cv_links cv) [] |}.
Proof.
  intros Hn Ht Hc Hem Hph Had Hroles Hedu.
  unfold select_bio_content_deterministic. rewrite sorted_reverse_value.
  fold (date_sorted cv). cbn [bind].
  rewrite Hroles. cbn [bind]. rewrite Hedu. cbn [bind].
  rewrite Hn, Ht, Hc. cbn [index bind]. rewrite Hem, Hph, Had. reflexivity.
Qed.

Lemma comprehension_returns {A B : Type} (f : A -> outcome B) (l : list A) :
  Forall (fun x => exists y, f x = Return y) l ->
  exists ys, comprehension f l = Return ys.
Proof.
  induction 1 as [|x l [y Hy] _ [ys IH]]; simpl; [now exists []|].
  rewrite Hy, IH. simpl. now exists (y :: ys).
Qed.

Lemma StronglySorted_nth {A : Type} (R : A -> A -> Prop) (l : list A) :
  StronglySorted R l ->
  forall i j a b, (i < j)%nat -> nth_error l i = Some a -> nth_error l j = Some b -> R a b.
Proof.
  induction 1 as [|x l Hs IH Hx]; intros i j a b Hij Ha Hb.
  - destruct i; discriminate.
  - destruct j as [|j]; [lia|]. simpl in Hb. destruct i as [|i].
    + simpl in Ha. injection Ha as <-.
      rewrite Forall_forall in Hx. apply Hx. now apply nth_error_In in Hb.
    + simpl in Ha. apply (IH i j); [lia | assumption..].
Qed.

(** Without a readable year the key has year 0. *)
Lemma unparseable_year (e : Experience) :
  unparseable (get (e_start e) []) -> fst (key_of e) = 0%Z.
Proof.
  unfold unparseable, key_of, start_key, tokens, parse_start_date.
  destruct (split_ws (lower (strip (get (e_start e) [])))) as [|a [|b [|c r]]];
    try reflexivity.
  - intros ->. reflexivity.
  - intros ->. reflexivity.
Qed.

(** ** The start-date parser *)

(** C6 (amended).  [parse_start_date] returns a pair on every string.  On
    the lower-cased, whitespace-separated tokens of the stripped input:
    two tokens whose second is an integer give (year, month) with the
    month from [MONTH_MAP], 1..12 for a name of the vocabulary and 0 for
    any other name; two tokens whose second is no integer give (0, month),
    the month still looked up; a single integer token gives (year, 0); a
    single token that is no integer, and any other number of tokens, give
    (0, 0).  March 2021, 2019, gibberish and the German month name
    evaluate as the specification lists them. *)
Theorem parse_start_date_cases (date_str : str) :
  (exists year month, parse_start_date date_str = Return (year, month))
  /\ (forall month_str year_str year,
        tokens date_str = [month_str; year_str] -> int year_str = Return year ->
        parse_start_date date_str = Return (year, dict_get MONTH_MAP month_str 0%Z)
        /\ (In month_str (map fst MONTH_MAP) ->
            (1 <= dict_get MONTH_MAP month_str 0 <= 12)%Z)
        /\ (~ In month_str (map fst MONTH_MAP) ->
            dict_get MONTH_MAP month_str 0%Z = 0%Z))
  /\ (forall month_str year_str,
        tokens date_str = [month_str; year_str] -> int year_str = Raise ValueError ->
        parse_start_date date_str = Return (0%Z, dict_get MONTH_MAP month_str 0%Z))
  /\ (forall year_str year,
        tokens date_str = [year_str] -> int year_str = Return year ->
        parse_start_date date_str = Return (year, 0%Z))
  /\ (forall only,
        tokens date_str = [only] -> int only = Raise ValueError ->
        parse_start_date date_str = Return (0, 0)%Z)
  /\ (List.length (tokens date_str) <> 1%nat -> List.length (tokens date_str) <> 2%nat ->
      parse_start_date date_str = Return (0, 0)%Z)
  /\ parse_start_date (py "March 2021") = Return (2021, 3)%Z
  /\ parse_start_date (py "2019") = Return (2019, 0)%Z
  /\ parse_start_date (py "gibberish") = Return (0, 0)%Z
  /\ parse_start_date (py "März 2021") = Return (2021, 3)%Z.
Proof.
  split.
  { destruct (parse_start_date_total date_str) as [[y m] H]. now exists y, m. }
  unfold tokens, parse_start_date.
  split; [|split; [|split; [|split; [|split]]]].
  - intros month_str year_str year -> ->. split; [reflexivity|].
    split; [apply month_of_known | apply dict_get_absent].
  - intros month_str year_str -> ->. reflexivity.
  - intros year_str year -> ->. reflexivity.
  - intros only -> ->. reflexivity.
  - destruct (split_ws (lower (strip date_str))) as [|a [|b [|c r]]];
      simpl; intros H1 H2; congruence.
  - repeat split; vm_compute; reflexivity.
Qed.

Lemma parse_start_date_cases_witness :
  parse_start_date (py " Mai 2020") = Return (2020, 5)%Z
  /\ parse_start_date (py "Mai soon") = Return (0, 5)%Z.
Proof.
  destruct (parse_start_date_cases (py " Mai 2020")) as [_ [H _]].
  destruct (parse_start_date_cases (py "Mai soon")) as [_ [_ [H' _]]].
  split.
  - exact (proj1 (H (py "mai") (py "2020") 2020%Z eq_refl eq_refl)).
  - exact (H' (py "mai") (py "soon") eq_refl eq_refl).
Defined.

(** C6, as first stated, fails where a month name is followed by a token
    that is no year: the month is kept. *)
Lemma parse_start_date_bad_year_keeps_month :
  tokens (py "March xyz") = [py "march"; py "xyz"]
  /\ int (py "xyz") = Raise ValueError
  /\ parse_start_date (py "March xyz") = Return (0, 3)%Z
  /\ parse_start_date (py "March xyz") <> Return (0, 0)%Z.
Proof. repeat split; try (vm_compute; reflexivity). vm_compute. discriminate. Qed.

(** ** Unwrapping a fenced response *)

(** C7.  A response body wrapped in a leading fence line, with any
    language tag or none, and a trailing fence line is unwrapped to the
    body itself, so it parses, under any parser, to what the body parses
    to; whitespace around the block does not matter.  Each of the two
    steps removes its fence line on its own: the leading one whatever
    follows it, the trailing one whatever precedes it. *)
Theorem unwrap_fenced_response (Doc : Type) (parse : str -> option Doc) (tag body : str) :
  ~ In 10%N tag ->
  unwrap_response (fenced tag body) = body
  /\ parse (unwrap_response (fenced tag body)) = parse body
  /\ (forall before after,
        Forall (fun c => isspace c = true) before ->
        Forall (fun c => isspace c = true) after ->
        unwrap_response (before ++ fenced tag body ++ after) = body)
  /\ (forall rest, drop_leading_fence (fence ++ tag ++ nl ++ rest) = rest)
  /\ (forall rest, drop_trailing_fence (rest ++ nl ++ fence) = rest).
Proof.
  intros Htag.
  assert (H : drop_trailing_fence (drop_leading_fence (fenced tag body)) = body).
  { unfold fenced. rewrite drop_leading_fence_line by assumption.
    apply drop_trailing_fence_line. }
  assert (H0 : unwrap_response (fenced tag body) = body).
  { unfold unwrap_response. now rewrite strip_fenced. }
  repeat split.
  - exact H0.
  - now rewrite H0.
  - intros before after Hb Ha. unfold unwrap_response.
    now rewrite strip_padded_fenced.
  - intros rest. now apply drop_leading_fence_line.
  - intros rest. apply drop_trailing_fence_line.
Qed.

Lemma unwrap_fenced_response_witness :
  unwrap_response (fenced (py "yaml") (py "name: N")) = py "name: N"
  /\ unwrap_response (fenced [] (py "name: N")) = py "name: N".
Proof.
  split.
  - refine (proj1 (@unwrap_fenced_response str (@Some str) (py "yaml") (py "name: N") _)).
    vm_compute. intuition discriminate.
  - refine (proj1 (@unwrap_fenced_response str (@Some str) [] (py "name: N") _)).
    vm_compute. intuition.
Defined.

(** ** The deterministic selector *)

(** C1.  The career highlights are the first five of the bullets met when
    the date-sorted entries are scanned in order, the first four entries
    only and the first two bullets of each.  With ten entries of five
    bullets each these are the first two bullets of the first sorted
    entry, the first two of the second and the first of the third. *)
Theorem career_highlights_scan (cv : CV) (b : BioData) :
  select_bio_content_deterministic cv = Return b ->
  career_highlights b = firstn 5 (flat_map top_bullets (firstn 4 (date_sorted cv)))
  /\ (List.length (get (cv_experience cv) []) = 10%nat ->
      (forall e, In e (get (cv_experience cv) []) ->
                 List.length (get (e_bullets e) []) = 5%nat) ->
      exists e1 e2 e3 rest,
        date_sorted cv = e1 :: e2 :: e3 :: rest
        /\ career_highlights b
           = firstn 2 (get (e_bullets e1) []) ++ firstn 2 (get (e_bullets e2) [])
             ++ firstn 1 (get (e_bullets e3) [])
        /\ List.length (career_highlights b) = 5%nat).
Proof.
  intros Hsel. apply select_inv in Hsel as [_ [Hh _]].
  rewrite collect_highlights_firstn in Hh by (simpl; lia). simpl app in Hh.
  split; [exact Hh|].
  intros Hlen Hbul. pose proof (date_sorted_perm cv) as Hperm.
  pose proof (Permutation_length Hperm) as Hl. rewrite Hlen in Hl.
  assert (Hin : forall e, In e (date_sorted cv) -> List.length (get (e_bullets e) []) = 5%nat).
  { intros e He. apply Hbul. now apply (Permutation_in _ Hperm). }
  destruct (date_sorted cv) as [|e1 [|e2 [|e3 [|e4 rest]]]]; try discriminate.
  exists e1, e2, e3, (e4 :: rest). split; [reflexivity|].
  pose proof (Hin e1 (or_introl eq_refl)) as H1.
  pose proof (Hin e2 (or_intror (or_introl eq_refl))) as H2.
  pose proof (Hin e3 (or_intror (or_intror (or_introl eq_refl)))) as H3.
  rewrite Hh. unfold top_bullets. cbn [firstn flat_map].
  destruct (get (e_bullets e1) []) as [|a1 [|a2 [|a3 [|a4 [|a5 [|]]]]]]; try discriminate.
  destruct (get (e_bullets e2) []) as [|b1 [|b2 [|b3 [|b4 [|b5 [|]]]]]]; try discriminate.
  destruct (get (e_bullets e3) []) as [|c1 [|c2 [|c3 [|c4 [|c5 [|]]]]]]; try discriminate.
  split; reflexivity.
Qed.

Lemma career_highlights_scan_witness :
  exists b,
    select_bio_content_deterministic cv_ten = Return b
    /\ career_highlights b = map py ["E3.1"; "E3.2"; "E1.1"; "E1.2"; "E2.1"]%string.
Proof.
  assert (H : exists b, select_bio_content_deterministic cv_ten = Return b)
    by (vm_compute; eexists; reflexivity).
  destruct H as [b Hb]. exists b. split; [exact Hb|].
  rewrite (proj1 (career_highlights_scan cv_ten Hb)).
  vm_compute. reflexivity.
Defined.

(** C5 (amended).  The current roles are the first three entries of the
    stable descending sort by the parsed (year, month) key: the sorted
    list is a permutation of the entries, ordered by decreasing key, with
    the entries of any one key in their original order, and it is the only
    such list.  Each role shows the title, the org or the empty string,
    and the period "start — end".  An entry whose start period yields no
    year has year 0 in its key and comes after every entry whose key has a
    positive year. *)
Theorem current_roles_top_three (cv : CV) (b : BioData) :
  select_bio_content_deterministic cv = Return b ->
  let entries := get (cv_experience cv) [] in
  Permutation (date_sorted cv) entries
  /\ StronglySorted not_older (date_sorted cv)
  /\ (forall k, with_key k (date_sorted cv) = with_key k entries)
  /\ (forall l, StronglySorted not_older l ->
                (forall k, with_key k l = with_key k entries) -> l = date_sorted cv)
  /\ Forall2 projects_to (firstn 3 (date_sorted cv)) (current_roles b)
  /\ (forall e, unparseable (get (e_start e) []) -> fst (key_of e) = 0%Z)
  /\ (forall i j e1 e2,
        nth_error (date_sorted cv) i = Some e1 ->
        nth_error (date_sorted cv) j = Some e2 ->
        unparseable (get (e_start e1) []) -> (0 < fst (key_of e2))%Z ->
        (j < i)%nat).
Proof.
  intros Hsel entries. apply select_inv in Hsel as [Hroles _].
  split; [apply date_sorted_perm|].
  split; [apply date_sorted_desc|].
  split; [apply date_sorted_stable|].
  split; [apply date_sorted_unique|].
  split; [|split; [exact unparseable_year|]].
  - apply comprehension_Forall2 in Hroles.
    eapply Forall2_impl; [|exact Hroles]. intros e r. apply role_of_projects.
  - intros i j e1 e2 H1 H2 Hun Hpos.
    apply unparseable_year in Hun.
    destruct (Nat.lt_ge_cases j i) as [|Hle]; [assumption|exfalso].
    destruct (Nat.eq_dec i j) as [->|Hne].
    + rewrite H1 in H2. injection H2 as ->. lia.
    + assert (Hlt : (i < j)%nat) by lia.
      pose proof (StronglySorted_nth (date_sorted_desc cv) Hlt H1 H2) as Hno.
      unfold not_older in Hno.
      destruct (key_of e1) as [y1 m1], (key_of e2) as [y2 m2].
      simpl in Hun, Hpos. key_arith.
Qed.

Lemma current_roles_top_three_witness :
  exists b,
    select_bio_content_deterministic cv_tied = Return b
    /\ map role_title (current_roles b) = [py "B"; py "D"; py "A"]
    /\ Forall2 projects_to (firstn 3 (date_sorted cv_tied)) (current_roles b).
Proof.
  assert (H : exists b, select_bio_content_deterministic cv_tied = Return b
                        /\ map role_title (current_roles b) = [py "B"; py "D"; py "A"])
    by (vm_compute; eexists; split; reflexivity).
  destruct H as [b [Hb Hroles]]. exists b. split; [exact Hb|]. split; [exact Hroles|].
  exact (proj1 (proj2 (proj2 (proj2 (proj2 (current_roles_top_three cv_tied Hb)))))).
Defined.

(** C5, as first stated, fails where a start period reads as a year below
    zero: the entry without a readable year has the greater key and is
    listed before it. *)
Lemma undated_entry_sorts_first :
  unparseable (py "gibberish")
  /\ parse_start_date (py "gibberish") = Return (0, 0)%Z
  /\ ~ unparseable (py "-1")
  /\ parse_start_date (py "-1") = Return (-1, 0)%Z
  /\ (exists b,
        select_bio_content_deterministic undated_first = Return b
        /\ map role_title (current_roles b) = [py "undated"; py "dated"])
  /\ ~ undated_have_least_key (get (cv_experience undated_first) []).
Proof.
  split; [vm_compute; reflexivity|].
  split; [vm_compute; reflexivity|].
  split; [vm_compute; discriminate|].
  split; [vm_compute; reflexivity|].
  split; [vm_compute; eexists; split; reflexivity|].
  intros H.
  specialize (H (mk_entry "undated" "gibberish" "0" [])
                (mk_entry "dated" "-1" "0" [])).
  assert (Hlt : key_ltb (key_of (mk_entry "dated" "-1" "0" []))
                  (key_of (mk_entry "undated" "gibberish" "0" [])) = false).
  { apply H; [right; left; reflexivity | left; reflexivity | vm_compute; reflexivity]. }
  vm_compute in Hlt. discriminate.
Qed.

(** C2 (amended).  The selector returns a bio, every field set, for a CV
    that has its name, its title and a contact mapping with email, phone
    and address, whose three most recent entries each have title, start
    and end, and whose education entries each have degree and institution;
    every other section or key may be absent.  Absent experience gives no
    roles and no highlights, absent skills an empty skills line, absent
    education, links and photo empty values, and an absent profile summary
    the lone period the summary rule appends. *)
Theorem select_tolerates_absent_sections
  (cv : CV) (n ti : str) (c : Contact) (em ph ad : str) :
  cv_name cv = Some n -> cv_title cv = Some ti -> cv_contact cv = Some c ->
  email c = Some em -> phone c = Some ph -> address c = Some ad ->
  (forall e, In e (firstn 3 (date_sorted cv)) ->
             e_title e <> None /\ e_start e <> None /\ e_end e <> None) ->
  (forall d, In d (get (cv_education cv) []) ->
             degree d <> None /\ institution d <> None) ->
  exists b,
    select_bio_content_deterministic cv = Return b
    /\ name b = n /\ title b = ti
    /\ contact b = {| bio_email := em; bio_phone := ph; bio_address := ad |}
    /\ photo b = get (cv_photo cv) []
    /\ links b = get (cv_links cv) []
    /\ skills_summary b = skills_line cv
    /\ Forall2 projects_to (firstn 3 (date_sorted cv)) (current_roles b)
    /\ career_highlights b = firstn 5 (flat_map top_bullets (firstn 4 (date_sorted cv)))
    /\ (cv_experience cv = None -> current_roles b = [] /\ career_highlights b = [])
    /\ (cv_skills cv = None -> skills_summary b = [])
    /\ (cv_education cv = None -> education b = [])
    /\ (cv_profile cv = None -> bio_summary b = py ".")
    /\ (cv_photo cv = None -> photo b = [])
    /\ (cv_links cv = None -> links b = []).
Proof.
  intros Hn Ht Hc Hem Hph Had Hexp Hedu.
  destruct (comprehension_returns role_of (l := firstn 3 (date_sorted cv))) as [roles Hroles].
  { apply Forall_forall. intros e He. destruct (Hexp e He) as [H1 [H2 H3]].
    unfold role_of. destruct (e_title e), (e_start e), (e_end e); try congruence.
    simpl. eauto. }
  destruct (comprehension_returns education_line (l := get (cv_education cv) [])) as [edu Hed].
  { apply Forall_forall. intros d Hd. destruct (Hedu d Hd) as [H1 H2].
    unfold education_line. destruct (degree d), (institution d); try congruence.
    simpl. eauto. }
  pose proof (select_returns cv Hn Ht Hc Hem Hph Had Hroles Hed) as Hsel.
  eexists. split; [exact Hsel|]. cbn.
  repeat (split; [reflexivity|]).
  split.
  { apply comprehension_Forall2 in Hroles.
    eapply Forall2_impl; [|exact Hroles]. intros e r. apply role_of_projects. }
  split.
  { now rewrite collect_highlights_firstn by (simpl; lia). }
  split.
  { intros Hnone. unfold date_sorted in *. rewrite Hnone in *. simpl in *.
    split; [congruence | reflexivity]. }
  split.
  { intros Hnone. unfold skills_line. rewrite Hnone. reflexivity. }
  split.
  { intros Hnone. rewrite Hnone in Hed. simpl in Hed. congruence. }
  split.
  { intros Hnone. rewrite Hnone. reflexivity. }
  split; intros ->; reflexivity.
Qed.

Lemma select_tolerates_absent_sections_witness :
  exists b,
    select_bio_content_deterministic cv_sparse = Return b
    /\ map role_title (current_roles b) = [py "B"; py "C"; py "A"]
    /\ map role_org (current_roles b) = [[]; []; []]
    /\ career_highlights b = [] /\ education b = []
    /\ skills_summary b = [] /\ links b = [] /\ photo b = []
    /\ bio_summary b = py ".".
Proof.
  destruct (@select_tolerates_absent_sections cv_sparse
              (py "N") (py "T")
              {| email := Some (py "e@x"); phone := Some (py "1");
                 address := Some (py "Berlin") |}
              (py "e@x") (py "1") (py "Berlin")
              eq_refl eq_refl eq_refl eq_refl eq_refl eq_refl)
    as [b [Hsel [_ [_ [_ [Hphoto [Hlinks [_ [_ [Hh [_ [Hsk [Hedu [Hsum _]]]]]]]]]]]]]].
  - intros e He. vm_compute in He.
    destruct He as [<- | [<- | [<- | []]]]; repeat split; discriminate.
  - intros d Hd. vm_compute in Hd. contradiction.
  - exists b. split; [exact Hsel|].
    assert (Hroles : map role_title (current_roles b) = [py "B"; py "C"; py "A"]
                     /\ map role_org (current_roles b) = [[]; []; []]).
    { revert Hsel. vm_compute. intros [= <-]. split; reflexivity. }
    destruct Hroles as [Ht Ho].
    split; [exact Ht|]. split; [exact Ho|].
    split; [rewrite Hh; vm_compute; reflexivity|].
    repeat split; auto.
Defined.

(** C2, as first stated, fails on a CV without contact information. *)
Lemma select_needs_contact :
  select_bio_content_deterministic cv_identity_only = Raise (KeyError "contact").
Proof. vm_compute. reflexivity. Qed.

(** The same where one of the entries shown has no end. *)
Example select_needs_end :
  select_bio_content_deterministic
    (mk_cv None (Some [ {| e_title := Some (py "A"); e_org := None;
                           e_start := Some (py "2020"); e_end := None;
                           e_bullets := None |} ]))
  = Raise (KeyError "end").
Proof. vm_compute. reflexivity. Qed.

(** C8 (amended).  The bio summary is computed from the profile summary
    with the whitespace at both ends removed: that text is split at the
    separator of a period and a space, the first four segments are joined
    again with the separator, and a period is appended unless the result
    ends with one.  A text of at most four segments is therefore kept
    whole.  The two sample summaries evaluate as the specification lists
    them. *)
Theorem bio_summary_first_four (cv : CV) (b : BioData) :
  select_bio_content_deterministic cv = Return b ->
  let text := strip (get (cv_profile cv) []) in
  let joined := join (py ". ") (firstn 4 (split text (py ". "))) in
  bio_summary b = (if endswith joined (py ".") then joined else joined ++ py ".")
  /\ ((List.length (split text (py ". ")) <= 4)%nat ->
      bio_summary b = if endswith text (py ".") then text else text ++ py ".")
  /\ (cv_profile cv = Some (py "A. B. C. D. E.") -> bio_summary b = py "A. B. C. D.")
  /\ (cv_profile cv = Some (py "A") -> bio_summary b = py "A.").
Proof.
  intros Hsel text joined. apply select_inv in Hsel as [_ [_ [_ [Hsum _]]]].
  fold text in Hsum. unfold first_four_sentences in Hsum. fold joined in Hsum.
  split; [exact Hsum|]. split.
  - intros Hlen. rewrite Hsum. unfold joined.
    rewrite firstn_all2 by assumption.
    rewrite join_split; [reflexivity | discriminate].
  - rewrite Hsum. unfold joined, text.
    split; intros ->; vm_compute; reflexivity.
Qed.

Lemma bio_summary_first_four_witness :
  exists b,
    select_bio_content_deterministic (mk_cv (Some (py "A. B. C. D. E.")) None) = Return b
    /\ bio_summary b = py "A. B. C. D.".
Proof.
  assert (H : exists b,
             select_bio_content_deterministic (mk_cv (Some (py "A. B. C. D. E.")) None)
             = Return b)
    by (vm_compute; eexists; reflexivity).
  destruct H as [b Hb]. exists b. split; [exact Hb|].
  exact (proj1 (proj2 (proj2 (bio_summary_first_four _ Hb))) eq_refl).
Defined.

(** C8, as first stated, fails on a summary with whitespace at an end: the
    rule applied to the summary as given keeps a leading blank, and puts a
    period after a final line break, where the selector does neither. *)
Lemma bio_summary_strips_first :
  first_four_sentences (py " A") = py " A."
  /\ first_four_sentences (py "A. B." ++ nl) = py "A. B." ++ nl ++ py "."
  /\ (exists b,
        select_bio_content_deterministic (mk_cv (Some (py " A")) None) = Return b
        /\ bio_summary b = py "A."
        /\ bio_summary b <> first_four_sentences (py " A"))
  /\ (exists b,
        select_bio_content_deterministic (mk_cv (Some (py "A. B." ++ nl)) None) = Return b
        /\ bio_summary b = py "A. B."
        /\ bio_summary b <> first_four_sentences (py "A. B." ++ nl)).
Proof.
  split; [vm_compute; reflexivity|].
  split; [vm_compute; reflexivity|].
  split; vm_compute; eexists; (split; [reflexivity|]); split;
    [reflexivity | discriminate | reflexivity | discriminate].
Qed.

(** The skills line lists the leadership skills, then the technical
    skills, fifteen in all at most: of twenty leadership skills the first
    fifteen; five leadership skills and then the first ten technical
    ones. *)
Theorem skills_summary_leadership_first (cv : CV) (b : BioData) :
  select_bio_content_deterministic cv = Return b ->
  skills_summary b
  = join (py ", ")
      (firstn 15 (get (leadership (get (cv_skills cv) no_skills)) []
                  ++ get (technical (get (cv_skills cv) no_skills)) []))
  /\ (forall ls ts,
        cv_skills cv = Some {| leadership := Some ls; technical := Some ts |} ->
        List.length ls = 20%nat ->
        skills_summary b = join (py ", ") (firstn 15 ls))
  /\ (forall ls ts,
        cv_skills cv = Some {| leadership := Some ls; technical := Some ts |} ->
        List.length ls = 5%nat ->
        skills_summary b = join (py ", ") (ls ++ firstn 10 ts)).
Proof.
  intros Hsel. apply select_inv in Hsel as [_ [_ [_ [_ [Hsk _]]]]].
  unfold skills_line in Hsk. split; [exact Hsk|].
  split; intros ls ts Hcv Hlen; rewrite Hsk, Hcv; simpl get; rewrite firstn_app, Hlen.
  - simpl Nat.sub. simpl firstn at 2. now rewrite app_nil_r.
  - simpl Nat.sub. now rewrite firstn_all2 by lia.
Qed.

Lemma skills_summary_leadership_first_witness :
  let cv :=
    {| cv_name := Some (py "N"); cv_title := Some (py "T"); cv_photo := None;
       cv_contact := Some {| email := Some (py "e@x"); phone := Some (py "1");
                             address := Some (py "Berlin") |};
       cv_profile := None; cv_experience := None;
       cv_skills := Some {| leadership := Some (map py (five "L"));
                            technical := Some (map py ["Rocq"; "Python"]%string) |};
       cv_education := None; cv_links := None |} in
  exists b,
    select_bio_content_deterministic cv = Return b
    /\ skills_summary b = py "L.1, L.2, L.3, L.4, L.5, Rocq, Python".
Proof.
  intros cv.
  assert (H : exists b, select_bio_content_deterministic cv = Return b)
    by (vm_compute; eexists; reflexivity).
  destruct H as [b Hb]. exists b. split; [exact Hb|].
  rewrite (proj2 (proj2 (skills_summary_leadership_first cv Hb))
             (map py (five "L")) (map py ["Rocq"; "Python"]%string) eq_refl eq_refl).
  vm_compute. reflexivity.
Defined.

(** The education lines are "degree, institution", one per entry, in the
    order of the entries. *)
Theorem education_lines_in_order (cv : CV) (b : BioData) :
  select_bio_content_deterministic cv = Return b ->
  Forall2 (fun e line => exists d i, degree e = Some d /\ institution e = Some i
                                     /\ line = d ++ py ", " ++ i)
    (get (cv_education cv) []) (education b).
Proof.
  intros Hsel. apply select_inv in Hsel as [_ [_ [Hedu _]]].
  apply comprehension_Forall2 in Hedu.
  eapply Forall2_impl; [|exact Hedu]. intros e line. unfold education_line.
  destruct (degree e) as [d|]; simpl; try discriminate.
  destruct (institution e) as [i|]; simpl; try discriminate.
  intros [= <-]. now exists d, i.
Qed.

Lemma education_lines_in_order_witness :
  let cv :=
    {| cv_name := Some (py "N"); cv_title := Some (py "T"); cv_photo := None;
       cv_contact := Some {| email := Some (py "e@x"); phone := Some (py "1");
                             address := Some (py "Berlin") |};
       cv_profile := None; cv_experience := None; cv_skills := None;
       cv_education :=
         Some [ {| degree := Some (py "MSc"); institution := Some (py "TU") |};
                {| degree := Some (py "BSc"); institution := Some (py "FU") |} ];
       cv_links := None |} in
  exists b,
    select_bio_content_deterministic cv = Return b
    /\ education b = [py "MSc, TU"; py "BSc, FU"]
    /\ List.length (education b) = List.length (get (cv_education cv) []).
Proof.
  intros cv.
  assert (H : exists b, select_bio_content_deterministic cv = Return b
                        /\ education b = [py "MSc, TU"; py "BSc, FU"])
    by (vm_compute; eexists; split; reflexivity).
  destruct H as [b [Hb He]]. exists b. split; [exact Hb|]. split; [exact He|].
  symmetry. exact (Forall2_length (education_lines_in_order cv Hb)).
Defined.

(** ** The translation cache *)

Section CacheFacts.

Variable Doc : Type.
Variable yaml_dump : Doc -> str.
Variable yaml_safe_load : str -> option Doc.
Variable service : list Request -> Request -> option str.
Variable as_cv : Doc -> CV.
Variable bio_dict : BioData -> Doc.

Local Abbreviation translate := (translate_cv yaml_dump yaml_safe_load service).

Lemma load_cv_cache_loaded (w : World) (text : str) :
  cache_file w = Some text ->
  load_cv_cache yaml_safe_load w = (loaded yaml_safe_load text, w).
Proof.
  intros H. unfold load_cv_cache, safe_load, loaded. rewrite H.
  now destruct (yaml_safe_load text).
Qed.

(** A request that accepts the cache never gets past the cache file. *)
Lemma translate_from_cache (cv : Doc) (w : World) (text : str) :
  cache_file w = Some text ->
  translate cv false w = (loaded yaml_safe_load text, w).
Proof.
  intros H. unfold translate_cv, cache_exists. rewrite H. simpl.
  now apply load_cv_cache_loaded.
Qed.

(** C9.  With a cache file present, a request that does not ask for a
    fresh translation returns what the file holds, sends nothing to the
    remote service and leaves the file as it is, whatever CV is passed:
    two different CVs get the same answer. *)
Theorem cached_translation_is_served (cv : Doc) (w : World) (text : str) :
  cache_file w = Some text ->
  translate cv false w = (loaded yaml_safe_load text, w)
  /\ (forall cached, yaml_safe_load text = Some cached ->
                     fst (translate cv false w) = Return cached)
  /\ requests (snd (translate cv false w)) = requests w
  /\ (forall edited, translate edited false w = translate cv false w).
Proof.
  intros H. pose proof (fun d => @translate_from_cache d w text H) as E.
  split; [apply E|]. split.
  - intros cached Hc. rewrite E. unfold loaded. now rewrite Hc.
  - split; [now rewrite E | intros edited; now rewrite !E].
Qed.

(** C4 (amended).  Without a credential, a request returns what the cache
    file holds, sends nothing to the remote service and leaves the file as
    it is, provided the file exists and either no fresh translation was
    asked for or the client library can be imported; without a credential
    and without a cache file the request exits with status 1. *)
Theorem no_credential_falls_back (cv : Doc) (retranslate : bool) (w : World) :
  truthy (ANTHROPIC_API_KEY w) = false ->
  (forall text,
      cache_file w = Some text ->
      retranslate = false \/ anthropic_installed w = true ->
      translate cv retranslate w = (loaded yaml_safe_load text, w))
  /\ (cache_file w = None -> translate cv retranslate w = (Exit 1, w)).
Proof.
  intros Hkey. split.
  - intros text Hc Hor. unfold translate_cv, cache_exists. rewrite Hc, Hkey.
    destruct retranslate; simpl.
    + destruct Hor as [Hr|Hr]; [discriminate|]. rewrite Hr. simpl.
      now apply load_cv_cache_loaded.
    + now apply load_cv_cache_loaded.
  - intros Hc. unfold translate_cv, cache_exists. rewrite Hc, Hkey.
    rewrite andb_false_r. now destruct (anthropic_installed w).
Qed.

(** A fresh translation, step by step. *)
Lemma translate_fresh (cv : Doc) (v : World) :
  anthropic_installed v = true -> truthy (ANTHROPIC_API_KEY v) = true ->
  translate cv true v
  = match service (requests v) (translate_request yaml_dump cv) with
    | None => (Raise APIError, sent (translate_request yaml_dump cv) v)
    | Some text =>
        match yaml_safe_load (unwrap_response text) with
        | None => (Raise YAMLError, sent (translate_request yaml_dump cv) v)
        | Some translated =>
            (Return translated,
             set_cache (Some (yaml_dump translated))
               (sent (translate_request yaml_dump cv) v))
        end
    end.
Proof.
  intros Hi Hk. unfold translate_cv. rewrite Hi, Hk. simpl.
  unfold bindM, messages_create, safe_load, write_cache, ret, stop.
  fold (sent (translate_request yaml_dump cv) v).
  destruct (service (requests v) (translate_request yaml_dump cv)) as [text|];
    [|reflexivity].
  now destruct (yaml_safe_load (unwrap_response text)).
Qed.

Lemma select_bio_content_run (cv : Doc) (v : World) :
  anthropic_installed v = true -> truthy (ANTHROPIC_API_KEY v) = true ->
  select_bio_content yaml_dump yaml_safe_load service cv v
  = match service (requests v) (bio_request yaml_dump cv) with
    | None => (Raise APIError, sent (bio_request yaml_dump cv) v)
    | Some text =>
        (loaded yaml_safe_load (unwrap_response text), sent (bio_request yaml_dump cv) v)
    end.
Proof.
  intros Hi Hk.
  unfold select_bio_content, bindM, get_anthropic_client. rewrite Hi, Hk. simpl.
  unfold messages_create, safe_load, loaded, ret, stop.
  fold (sent (bio_request yaml_dump cv) v).
  destruct (service (requests v) (bio_request yaml_dump cv)) as [text|];
    [|reflexivity].
  now destruct (yaml_safe_load (unwrap_response text)).
Qed.

Lemma select_bio_content_exits (cv : Doc) (v : World) :
  anthropic_installed v = false ->
  select_bio_content yaml_dump yaml_safe_load service cv v = (Exit 1, v).
Proof.
  intros Hi. unfold select_bio_content, bindM, get_anthropic_client.
  now rewrite Hi.
Qed.

(** C3 (amended).  With a credential and the client library at hand, a
    request for a fresh translation sends its request to the remote
    service whatever the cache holds; when the service answers and the
    unwrapped answer parses, the parsed document is returned and the
    cache file is rewritten to hold the dump of that document and nothing
    of what it held before. *)
Theorem forced_refresh_overwrites (cv : Doc) (w : World) :
  anthropic_installed w = true -> truthy (ANTHROPIC_API_KEY w) = true ->
  requests (snd (translate cv true w)) = requests w ++ [translate_request yaml_dump cv]
  /\ (forall text translated,
        service (requests w) (translate_request yaml_dump cv) = Some text ->
        yaml_safe_load (unwrap_response text) = Some translated ->
        translate cv true w
        = (Return translated,
           {| anthropic_installed := anthropic_installed w;
              ANTHROPIC_API_KEY := ANTHROPIC_API_KEY w;
              cache_file := Some (yaml_dump translated);
              requests := requests w ++ [translate_request yaml_dump cv] |})
        /\ forall old, translate cv true (set_cache old w) = translate cv true w).
Proof.
  intros Hi Hk. split.
  - rewrite translate_fresh by assumption.
    destruct (service (requests w) (translate_request yaml_dump cv)) as [text|];
      [|reflexivity].
    now destruct (yaml_safe_load (unwrap_response text)).
  - intros text translated Hs Hp. split.
    + rewrite translate_fresh by assumption. now rewrite Hs, Hp.
    + intros old. rewrite !translate_fresh by assumption.
      simpl. now rewrite Hs, Hp.
Qed.

(** C10.  The bio command with language "de" passes the selected bio to
    [translate_cv] with [retranslate] set.  When a credential is set and
    the command succeeds, two requests were sent, the bio selection and
    the translation of the selected bio; the outcome does not depend on
    what the cache file held, and the cache file now holds the dump of the
    translated bio that was shown.  The next request for a translation of
    the full CV that accepts the cache is answered from that file: where
    the dump reads back, the build command gets the translated bio as its
    German CV. *)
Theorem german_bio_fills_the_cache (cv_en : Doc) (w : World) :
  bio yaml_dump yaml_safe_load service as_cv bio_dict (py "de") cv_en w
  = (bio_data <--
       (if truthy (ANTHROPIC_API_KEY w)
        then select_bio_content yaml_dump yaml_safe_load service cv_en
        else stop (b <- select_bio_content_deterministic (as_cv cv_en) ;;
                   Return (bio_dict b))) ;;
     translate bio_data true) w
  /\ forall (w' : World) (shown : Doc),
      truthy (ANTHROPIC_API_KEY w) = true ->
      bio yaml_dump yaml_safe_load service as_cv bio_dict (py "de") cv_en w
      = (Return shown, w') ->
      (exists bio_data,
          requests w' = requests w ++ [bio_request yaml_dump cv_en;
                                       translate_request yaml_dump bio_data])
      /\ cache_file w' = Some (yaml_dump shown)
      /\ (forall old,
            bio yaml_dump yaml_safe_load service as_cv bio_dict (py "de") cv_en
              (set_cache old w)
            = (Return shown, w'))
      /\ (forall full_cv,
            translate full_cv false w' = (loaded yaml_safe_load (yaml_dump shown), w'))
      /\ (yaml_safe_load (yaml_dump shown) = Some shown ->
          forall full_cv,
            do_build yaml_dump yaml_safe_load service [py "de"] false full_cv w'
            = (Return [(shown, py "de")], w')).
Proof.
  split; [reflexivity|].
  intros w' shown Hk Hbio.
  assert (E : forall v, truthy (ANTHROPIC_API_KEY v) = true ->
             bio yaml_dump yaml_safe_load service as_cv bio_dict (py "de") cv_en v
             = (bio_data <-- select_bio_content yaml_dump yaml_safe_load service cv_en ;;
                translate bio_data true) v).
  { intros v Hv. unfold bio. rewrite Hv. reflexivity. }
  rewrite E in Hbio by assumption.
  assert (Hrun : forall old,
             (bio_data <-- select_bio_content yaml_dump yaml_safe_load service cv_en ;;
              translate bio_data true) (set_cache old w) = (Return shown, w')
             /\ cache_file w' = Some (yaml_dump shown)
             /\ exists bio_data,
                 requests w' = requests w ++ [bio_request yaml_dump cv_en;
                                              translate_request yaml_dump bio_data]).
  { intros old. revert Hbio. unfold bindM.
    destruct (anthropic_installed w) eqn:Hi.
    2:{ rewrite select_bio_content_exits by assumption. discriminate. }
    rewrite !select_bio_content_run by assumption. simpl requests.
    destruct (service (requests w) (bio_request yaml_dump cv_en)) as [t1|];
      [|discriminate].
    unfold loaded.
    destruct (yaml_safe_load (unwrap_response t1)) as [bio_data|]; [|discriminate].
    rewrite !translate_fresh by assumption. simpl requests.
    destruct (service (requests w ++ [bio_request yaml_dump cv_en])
                (translate_request yaml_dump bio_data)) as [t2|]; [|discriminate].
    destruct (yaml_safe_load (unwrap_response t2)) as [translated|]; [|discriminate].
    intros [= <- <-]. split; [reflexivity|]. split; [reflexivity|].
    exists bio_data. simpl. now rewrite <- app_assoc. }
  destruct (Hrun (cache_file w)) as [_ [Hcache Hreq]].
  split; [exact Hreq|]. split; [exact Hcache|]. split.
  - intros old. rewrite E by assumption. apply Hrun.
  - split.
    + intros full_cv. now apply translate_from_cache.
    + intros Hback full_cv. simpl. unfold bindM.
      rewrite (@translate_from_cache full_cv w' (yaml_dump shown) Hcache).
      unfold loaded. rewrite Hback. reflexivity.
Qed.

End CacheFacts.

(** ** The cache theorems on sample worlds *)

Lemma cached_translation_is_served_witness :
  let w := sample_world true (Some (py "key")) (Some (py "cv: DE, old")) in
  translate_cv sample_dump sample_load sample_service (py "cv: EN") false w
  = (Return (py "cv: DE, old"), w)
  /\ translate_cv sample_dump sample_load sample_service (py "cv: EN, edited") false w
     = translate_cv sample_dump sample_load sample_service (py "cv: EN") false w.
Proof.
  intros w.
  destruct (@cached_translation_is_served str sample_dump sample_load sample_service
              (py "cv: EN") w (py "cv: DE, old") eq_refl) as [H [_ [_ Hedit]]].
  split; [exact H | apply Hedit].
Defined.

Lemma no_credential_falls_back_witness :
  (let w := sample_world true None (Some (py "cv: DE, old")) in
   translate_cv sample_dump sample_load sample_service (py "cv: EN") true w
   = (Return (py "cv: DE, old"), w))
  /\ (let w := sample_world true None None in
      translate_cv sample_dump sample_load sample_service (py "cv: EN") false w
      = (Exit 1, w)).
Proof.
  split; intros w.
  - exact (proj1 (@no_credential_falls_back str sample_dump sample_load sample_service
                    (py "cv: EN") true w eq_refl)
             (py "cv: DE, old") eq_refl (or_intror eq_refl)).
  - exact (proj2 (@no_credential_falls_back str sample_dump sample_load sample_service
                    (py "cv: EN") false w eq_refl) eq_refl).
Defined.

(** C4, as first stated, fails where the client library cannot be
    imported and a fresh translation is asked for: the import is tried
    before the credential is looked at, and the request exits although a
    cache file exists. *)
Lemma no_library_exits_despite_cache :
  let w := sample_world false None (Some (py "cv: DE, old")) in
  truthy (ANTHROPIC_API_KEY w) = false
  /\ cache_file w = Some (py "cv: DE, old")
  /\ translate_cv sample_dump sample_load sample_service (py "cv: EN") true w
     = (Exit 1, w).
Proof. repeat split. Qed.

Lemma forced_refresh_overwrites_witness :
  let w := sample_world true (Some (py "key")) (Some (py "cv: DE, old")) in
  translate_cv sample_dump sample_load sample_service (py "cv: EN") true w
  = (Return (py "bio: DE"),
     {| anthropic_installed := true;
        ANTHROPIC_API_KEY := Some (py "key");
        cache_file := Some (py "bio: DE");
        requests := [translate_request sample_dump (py "cv: EN")] |}).
Proof.
  intros w.
  refine (proj1 (proj2 (@forced_refresh_overwrites str sample_dump sample_load
                          sample_service (py "cv: EN") w eq_refl eq_refl)
                   (fenced (py "yaml") (py "bio: DE")) (py "bio: DE") eq_refl _)).
  vm_compute. reflexivity.
Defined.

(** C3, as first stated, fails where no credential is set: the request
    for a fresh translation returns what the cache file holds and sends
    nothing. *)
Lemma forced_refresh_without_credential :
  let w := sample_world true None (Some (py "cv: DE, old")) in
  translate_cv sample_dump sample_load sample_service (py "cv: EN") true w
  = (Return (py "cv: DE, old"), w)
  /\ requests w = [].
Proof. split; reflexivity. Qed.

Lemma german_bio_fills_the_cache_witness :
  let w := sample_world true (Some (py "key")) (Some (py "cv: DE, old")) in
  exists w',
    bio sample_dump sample_load sample_service (fun _ => mk_cv None None) name
      (py "de") (py "cv: EN") w = (Return (py "bio: DE"), w')
    /\ cache_file w' = Some (py "bio: DE")
    /\ do_build sample_dump sample_load sample_service [py "de"] false (py "cv: EN") w'
       = (Return [(py "bio: DE", py "de")], w').
Proof.
  intros w.
  assert (H : exists w',
             bio sample_dump sample_load sample_service (fun _ => mk_cv None None) name
               (py "de") (py "cv: EN") w = (Return (py "bio: DE"), w'))
    by (vm_compute; eexists; reflexivity).
  destruct H as [w' Hbio]. exists w'. split; [exact Hbio|].
  destruct (proj2 (@german_bio_fills_the_cache str sample_dump sample_load sample_service
                     (fun _ => mk_cv None None) name (py "cv: EN") w)
              w' (py "bio: DE") eq_refl Hbio) as [_ [Hcache [_ [_ Hbuild]]]].
  split; [exact Hcache | exact (Hbuild eq_refl (py "cv: EN"))].
Defined.

(** ** Further properties of the deterministic selector *)

Lemma firstn_min_length {A : Type} (n : nat) (l : list A) :
  List.length (firstn n l) = Nat.min n (List.length l).
Proof. apply length_firstn. Qed.

Lemma In_firstn {A : Type} (n : nat) (l : list A) (x : A) :
  In x (firstn n l) -> In x l.
Proof.
  revert l. induction n as [|n IH]; intros [|y l]; simpl; try tauto.
  intros [->|H]; [now left | right; now apply IH].
Qed.

Lemma endswith_period (s : str) :
  endswith (if endswith s (py ".") then s else s ++ py ".") (py ".") = true.
Proof.
  destruct (endswith s (py ".")) eqn:E; [exact E | apply endswith_app].
Qed.

(** The shape of a selected bio: as many roles as there are entries, up
    to three; at most five highlights, each one of the first two bullets
    of an entry of the CV; every role taken from an entry of the CV; as
    many education lines as education entries; a summary that ends with a
    period. *)
Theorem selected_bio_shape (cv : CV) (b : BioData) :
  select_bio_content_deterministic cv = Return b ->
  let entries := get (cv_experience cv) [] in
  List.length (current_roles b) = Nat.min 3 (List.length entries)
  /\ (List.length (career_highlights b) <= 5)%nat
  /\ (forall h, In h (career_highlights b) ->
                exists e, In e entries /\ In h (firstn 2 (get (e_bullets e) [])))
  /\ (forall r, In r (current_roles b) -> exists e, In e entries /\ projects_to e r)
  /\ List.length (education b) = List.length (get (cv_education cv) [])
  /\ endswith (bio_summary b) (py ".") = true.
Proof.
  intros Hsel entries.
  apply select_inv in Hsel as [Hroles [Hh [Hedu [Hsum _]]]].
  pose proof (date_sorted_perm cv) as Hperm. fold entries in Hperm.
  apply comprehension_Forall2 in Hroles. apply comprehension_Forall2 in Hedu.
  rewrite collect_highlights_firstn in Hh by (simpl; lia). cbn [app] in Hh.
  split.
  { rewrite <- (Forall2_length Hroles), firstn_min_length.
    now rewrite (Permutation_length Hperm). }
  split.
  { rewrite Hh, length_firstn. lia. }
  split.
  { intros h Hin. rewrite Hh in Hin. apply In_firstn in Hin.
    apply in_flat_map in Hin as [e [He Hb]]. exists e. split; [|exact Hb].
    apply (Permutation_in _ Hperm). now apply In_firstn in He. }
  split.
  { intros r Hr.
    assert (H : forall l rs, Forall2 (fun e r' => role_of e = Return r') l rs ->
                             In r rs -> exists e, In e l /\ role_of e = Return r).
    { induction 1 as [|e r' l rs He _ IH]; simpl; [tauto|].
      intros [->|Hin]; [exists e; auto|].
      destruct (IH Hin) as [e' [H1 H2]]. exists e'. auto. }
    destruct (H _ _ Hroles Hr) as [e [He Hp]]. exists e. split.
    - apply (Permutation_in _ Hperm). now apply In_firstn in He.
    - now apply role_of_projects. }
  split.
  { symmetry. exact (Forall2_length Hedu). }
  rewrite Hsum. unfold first_four_sentences. apply endswith_period.
Qed.

Lemma selected_bio_shape_witness :
  exists b,
    select_bio_content_deterministic cv_ten = Return b
    /\ List.length (current_roles b) = 3%nat
    /\ (List.length (career_highlights b) <= 5)%nat.
Proof.
  assert (H : exists b, select_bio_content_deterministic cv_ten = Return b)
    by (vm_compute; eexists; reflexivity).
  destruct H as [b Hb]. exists b. split; [exact Hb|].
  destruct (selected_bio_shape cv_ten Hb) as [H1 [H2 _]].
  split; [exact H1 | exact H2].
Defined.

Lemma with_key_at_most_one (k : Z * Z) (l : list Experience) :
  NoDup (map key_of l) -> (List.length (with_key k l) <= 1)%nat.
Proof.
  induction l as [|a l IH]; simpl; intros Hnd; [lia|].
  inversion Hnd as [|? ? Hnotin Hnd']; subst.
  unfold with_key in *. simpl.
  destruct (key_eqb (key_of a) k) eqn:E; [|now apply IH].
  apply key_eqb_eq in E. simpl.
  destruct (filter (fun e => key_eqb (key_of e) k) l) as [|e r] eqn:F; [simpl; lia|].
  exfalso. apply Hnotin.
  assert (Hin : In e (filter (fun e => key_eqb (key_of e) k) l)) by (rewrite F; now left).
  apply filter_In in Hin as [Hin Hk]. apply key_eqb_eq in Hk.
  rewrite E, <- Hk. now apply in_map.
Qed.

Lemma with_key_perm (k : Z * Z) (l1 l2 : list Experience) :
  Permutation l1 l2 -> Permutation (with_key k l1) (with_key k l2).
Proof.
  unfold with_key. induction 1 as [|x l l' _ IH|x y l|l l' l'' _ IH1 _ IH2]; simpl.
  - constructor.
  - destruct (key_eqb (key_of x) k); [now constructor | assumption].
  - destruct (key_eqb (key_of x) k), (key_eqb (key_of y) k);
      try reflexivity. apply perm_swap.
  - now transitivity (filter (fun e => key_eqb (key_of e) k) l').
Qed.

Lemma with_key_perm_distinct (k : Z * Z) (l1 l2 : list Experience) :
  Permutation l1 l2 -> NoDup (map key_of l1) -> with_key k l1 = with_key k l2.
Proof.
  intros Hp Hnd. pose proof (with_key_perm k Hp) as Hk.
  pose proof (@with_key_at_most_one k l1 Hnd) as Hlen.
  destruct (with_key k l1) as [|a [|a' r]]; simpl in Hlen; try lia.
  - now apply Permutation_nil in Hk.
  - now apply Permutation_length_1_inv in Hk.
Qed.

(** The order in which the CV lists its entries matters only between
    entries of equal start key: two CVs that differ by a reordering of
    entries with pairwise distinct keys give the same outcome. *)
Theorem selection_ignores_entry_order (cv : CV) (l1 l2 : list Experience) :
  Permutation l1 l2 -> NoDup (map key_of l1) ->
  select_bio_content_deterministic (with_experience (Some l1) cv)
  = select_bio_content_deterministic (with_experience (Some l2) cv).
Proof.
  intros Hp Hnd.
  assert (Hs : date_sorted (with_experience (Some l1) cv)
               = date_sorted (with_experience (Some l2) cv)).
  { apply stable_desc_unique; try apply date_sorted_desc.
    intros k. rewrite !date_sorted_stable. simpl.
    now apply with_key_perm_distinct. }
  unfold select_bio_content_deterministic. rewrite !sorted_reverse_value.
  simpl cv_experience. unfold date_sorted in Hs. simpl in Hs.
  simpl get at 1. simpl get at 7. rewrite Hs. reflexivity.
Qed.

Lemma selection_ignores_entry_order_witness :
  select_bio_content_deterministic (with_experience (Some ten_entries) cv_ten)
  = select_bio_content_deterministic (with_experience (Some (rev ten_entries)) cv_ten).
Proof.
  apply selection_ignores_entry_order.
  - apply Permutation_rev.
  - vm_compute. repeat constructor; simpl; intuition discriminate.
Defined.

Lemma value_or_key_error_bind {A B : Type} (m : outcome A) (k : A -> outcome B) :
  value_or_key_error m -> (forall a, value_or_key_error (k a)) ->
  value_or_key_error (bind m k).
Proof. destruct m as [a|e|c]; simpl; auto. Qed.

Lemma value_or_key_error_index {A : Type} (key : string) (field : option A) :
  In key subscripted_keys -> value_or_key_error (index key field).
Proof. destruct field; simpl; auto. Qed.

Lemma value_or_key_error_comprehension {A B : Type} (f : A -> outcome B) (l : list A) :
  (forall x, value_or_key_error (f x)) -> value_or_key_error (comprehension f l).
Proof.
  intros H. induction l as [|x l IH]; simpl; [exact I|].
  apply value_or_key_error_bind; [apply H|]. intros y.
  apply value_or_key_error_bind; [exact IH|]. intros ys. exact I.
Qed.

Lemma select_value_or_key_error (cv : CV) :
  value_or_key_error (select_bio_content_deterministic cv).
Proof.
  unfold select_bio_content_deterministic. rewrite sorted_reverse_value. cbn [bind].
  apply value_or_key_error_bind.
  { apply value_or_key_error_comprehension. intros e. unfold role_of.
    repeat (apply value_or_key_error_bind;
            [apply value_or_key_error_index; key_listed | intros ?]).
    exact I. }
  intros roles. apply value_or_key_error_bind.
  { apply value_or_key_error_comprehension. intros e. unfold education_line.
    repeat (apply value_or_key_error_bind;
            [apply value_or_key_error_index; key_listed | intros ?]).
    exact I. }
  intros edu.
  repeat (apply value_or_key_error_bind;
          [apply value_or_key_error_index; key_listed | intros ?]).
  exact I.
Qed.

(** The selector never exits and raises nothing but a [KeyError] on one
    of the keys it reads by subscript; it returns exactly on the CVs that
    have name, title, the three contact fields, title, start and end on
    the three most recent entries, and degree and institution on every
    education entry. *)
Theorem selector_fails_on_missing_keys_only (cv : CV) :
  (forall code, select_bio_content_deterministic cv <> Exit code)
  /\ (forall e, select_bio_content_deterministic cv = Raise e ->
                exists key, e = KeyError key /\ In key subscripted_keys)
  /\ ((exists b, select_bio_content_deterministic cv = Return b) <-> selectable cv).
Proof.
  pose proof (select_value_or_key_error cv) as Hv.
  split; [|split].
  - intros code H. rewrite H in Hv. exact Hv.
  - intros e H. rewrite H in Hv. destruct e as [key| | | |]; simpl in Hv; try tauto.
    now exists key.
  - split.
    + intros [b Hb]. apply select_inv in Hb
        as [Hroles [_ [Hedu [_ [_ [Hn [Ht [_ [_ [c [Hc [Hem [Hph Had]]]]]]]]]]]]].
      unfold selectable. rewrite Hn, Ht.
      split; [discriminate|]. split; [discriminate|]. split.
      { exists c. rewrite Hem, Hph, Had. split; [exact Hc|].
        repeat split; discriminate. }
      apply comprehension_Forall2 in Hroles. apply comprehension_Forall2 in Hedu.
      split.
      * intros e He.
        assert (H : exists r, role_of e = Return r).
        { revert He. induction Hroles as [|x r l rs Hx _ IH]; simpl; [tauto|].
          intros [<-|Hin]; [now exists r | now apply IH]. }
        destruct H as [r Hr]. apply role_of_projects in Hr
          as [H1 [_ [s [en [H2 [H3 _]]]]]].
        rewrite H1, H2, H3. repeat split; discriminate.
      * intros d Hd.
        assert (H : exists line, education_line d = Return line).
        { revert Hd. induction Hedu as [|x r l rs Hx _ IH]; simpl; [tauto|].
          intros [<-|Hin]; [now exists r | now apply IH]. }
        destruct H as [line Hl]. unfold education_line in Hl.
        destruct (degree d), (institution d); simpl in Hl; try discriminate.
        split; discriminate.
    + intros [Hn [Ht [[c [Hc [Hem [Hph Had]]]] [Hexp Hedu]]]].
      destruct (cv_name cv) as [n|] eqn:En; [|congruence].
      destruct (cv_title cv) as [ti|] eqn:Et; [|congruence].
      destruct (email c) as [em|] eqn:Eem; [|congruence].
      destruct (phone c) as [ph|] eqn:Eph; [|congruence].
      destruct (address c) as [ad|] eqn:Ead; [|congruence].
      destruct (comprehension_returns role_of (l := firstn 3 (date_sorted cv)))
        as [roles Hroles].
      { apply Forall_forall. intros e He. destruct (Hexp e He) as [H1 [H2 H3]].
        unfold role_of. destruct (e_title e), (e_start e), (e_end e); try congruence.
        simpl. eauto. }
      destruct (comprehension_returns education_line (l := get (cv_education cv) []))
        as [edu Hed].
      { apply Forall_forall. intros d Hd. destruct (Hedu d Hd) as [H1 H2].
        unfold education_line. destruct (degree d), (institution d); try congruence.
        simpl. eauto. }
      eexists. exact (select_returns cv En Et Hc Eem Eph Ead Hroles Hed).
Qed.

Lemma selector_fails_on_missing_keys_only_witness :
  selectable cv_sparse /\ ~ selectable cv_identity_only.
Proof.
  split.
  - apply (proj2 (selector_fails_on_missing_keys_only cv_sparse)).
    vm_compute. eexists. reflexivity.
  - intros H.
    apply (proj2 (proj2 (selector_fails_on_missing_keys_only cv_identity_only))) in H.
    destruct H as [b Hb]. vm_compute in Hb. discriminate.
Defined.

(** ** Further properties of the start-date parser *)

Lemma lstrip_all_spaces (ws : str) :
  Forall (fun c => isspace c = true) ws -> lstrip ws = [].
Proof. induction 1 as [|c ws Hc _ IH]; simpl; [reflexivity | now rewrite Hc]. Qed.

Lemma lstrip_app_spaces (s ws : str) :
  Forall (fun c => isspace c = true) ws ->
  lstrip (s ++ ws) = lstrip s ++ ws \/ (lstrip (s ++ ws) = [] /\ lstrip s = []).
Proof.
  intros Hws. induction s as [|c r IH]; simpl.
  - right. split; [now apply lstrip_all_spaces | reflexivity].
  - destruct (isspace c); [exact IH | now left].
Qed.

(** Whitespace around a text does not survive [strip]. *)
Lemma strip_padded (before after s : str) :
  Forall (fun c => isspace c = true) before ->
  Forall (fun c => isspace c = true) after ->
  strip (before ++ s ++ after) = strip s.
Proof.
  intros Hb Ha. unfold strip. rewrite lstrip_spaces by assumption.
  destruct (lstrip_app_spaces s Ha) as [-> | [-> ->]]; [|reflexivity].
  now apply rstrip_spaces.
Qed.

Lemma month_in_range (m : str) : (0 <= dict_get MONTH_MAP m 0 <= 12)%Z.
Proof.
  destruct (in_dec (list_eq_dec N.eq_dec) m (map fst MONTH_MAP)) as [Hin|Hout].
  - pose proof (@month_of_known m Hin). lia.
  - rewrite (@dict_get_absent Z MONTH_MAP m 0%Z Hout). lia.
Qed.

(** The sort key always has a month between 0 and 12, and whitespace
    before and after a start period does not change its key. *)
Theorem parse_start_date_month_and_padding (date_str : str) :
  (exists year month,
      parse_start_date date_str = Return (year, month) /\ (0 <= month <= 12)%Z)
  /\ (forall before after,
        Forall (fun c => isspace c = true) before ->
        Forall (fun c => isspace c = true) after ->
        parse_start_date (before ++ date_str ++ after) = parse_start_date date_str).
Proof.
  split.
  - unfold parse_start_date.
    destruct (split_ws (lower (strip date_str))) as [|a [|b [|c r]]].
    + exists 0%Z, 0%Z. split; [reflexivity | lia].
    + destruct (int_cases a) as [[z ->] | ->]; simpl.
      * exists z, 0%Z. split; [reflexivity | lia].
      * exists 0%Z, 0%Z. split; [reflexivity | lia].
    + destruct (int_cases b) as [[z ->] | ->]; simpl; eexists; eexists;
        (split; [reflexivity | apply month_in_range]).
    + exists 0%Z, 0%Z. split; [reflexivity | lia].
  - intros before after Hb Ha. unfold parse_start_date.
    now rewrite strip_padded.
Qed.

Lemma parse_start_date_month_and_padding_witness :
  parse_start_date (py "  March 2021" ++ nl) = parse_start_date (py "March 2021").
Proof.
  refine (proj2 (parse_start_date_month_and_padding (py "March 2021"))
            (py "  ") nl _ _); vm_compute; repeat constructor.
Defined.

(** ** Further properties of the translation pipeline *)

Section PipelineFacts.

Variable Doc : Type.
Variable yaml_dump : Doc -> str.
Variable yaml_safe_load : str -> option Doc.
Variable service : list Request -> Request -> option str.
Variable as_cv : Doc -> CV.
Variable bio_dict : BioData -> Doc.
Variable alnum : char -> bool.

Local Abbreviation translate := (translate_cv yaml_dump yaml_safe_load service).
Local Abbreviation legacy := (legacy_translate_cv yaml_dump yaml_safe_load service).
Local Abbreviation run_bio := (bio yaml_dump yaml_safe_load service as_cv bio_dict).
Local Abbreviation run_tailor := (tailor yaml_dump yaml_safe_load service alnum).
Local Abbreviation run_build := (build yaml_dump yaml_safe_load service).

(** [translate_cv] by cases on the cache file, the flag and the
    environment. *)
Lemma translate_cv_cases (cv : Doc) (retranslate : bool) (w : World) :
  translate cv retranslate w
  = match cache_file w, retranslate with
    | Some text, false => (loaded yaml_safe_load text, w)
    | cache, _ =>
        if negb (anthropic_installed w) then (Exit 1, w)
        else if negb (truthy (ANTHROPIC_API_KEY w)) then
          match cache with
          | Some text => (loaded yaml_safe_load text, w)
          | None => (Exit 1, w)
          end
        else
          remote_round yaml_safe_load service (translate_request yaml_dump cv)
            (fun d => set_cache (Some (yaml_dump d))) w
    end.
Proof.
  assert (Hfresh : anthropic_installed w = true -> truthy (ANTHROPIC_API_KEY w) = true ->
            translate cv true w
            = remote_round yaml_safe_load service (translate_request yaml_dump cv)
                (fun d => set_cache (Some (yaml_dump d))) w).
  { intros Hi Hk. unfold translate_cv. rewrite Hi, Hk. simpl.
    unfold bindM, messages_create, safe_load, write_cache, ret, stop, remote_round.
    fold (sent (translate_request yaml_dump cv) w).
    destruct (service (requests w) (translate_request yaml_dump cv)) as [text|];
      [|reflexivity].
    now destruct (yaml_safe_load (unwrap_response text)). }
  assert (Hload : forall text, cache_file w = Some text ->
            load_cv_cache yaml_safe_load w = (loaded yaml_safe_load text, w)).
  { intros text H. unfold load_cv_cache, safe_load, loaded, ret, stop. rewrite H.
    now destruct (yaml_safe_load text). }
  destruct (cache_file w) as [text|] eqn:Hc.
  - destruct retranslate.
    + destruct (anthropic_installed w) eqn:Hi;
        [|unfold translate_cv; now rewrite Hi].
      destruct (truthy (ANTHROPIC_API_KEY w)) eqn:Hk; simpl; [now apply Hfresh|].
      unfold translate_cv, cache_exists. rewrite Hc, Hi, Hk. simpl. now apply Hload.
    + unfold translate_cv, cache_exists. rewrite Hc. simpl. now apply Hload.
  - destruct (anthropic_installed w) eqn:Hi.
    + destruct (truthy (ANTHROPIC_API_KEY w)) eqn:Hk; simpl.
      * destruct retranslate; [now apply Hfresh|].
        unfold translate_cv, cache_exists. rewrite Hc, Hi, Hk. simpl.
        unfold bindM, messages_create, safe_load, write_cache, ret, stop, remote_round.
        fold (sent (translate_request yaml_dump cv) w).
        destruct (service (requests w) (translate_request yaml_dump cv)) as [text|];
          [|reflexivity].
        now destruct (yaml_safe_load (unwrap_response text)).
      * unfold translate_cv, cache_exists. rewrite Hc, Hi, Hk.
        now destruct retranslate.
    + unfold translate_cv, cache_exists. rewrite Hc, Hi. now destruct retranslate.
Qed.

(** A request made through [get_anthropic_client], by cases on the
    environment. *)
Lemma client_round_cases (rq : Request) (w : World) :
  (_ <-- get_anthropic_client ;;
   text <-- messages_create service rq ;;
   safe_load yaml_safe_load (unwrap_response text)) w
  = if negb (anthropic_installed w) then (Exit 1, w)
    else if negb (truthy (ANTHROPIC_API_KEY w)) then (Exit 1, w)
    else remote_round yaml_safe_load service rq (fun _ v => v) w.
Proof.
  unfold bindM, get_anthropic_client.
  destruct (anthropic_installed w); simpl; [|reflexivity].
  destruct (truthy (ANTHROPIC_API_KEY w)); simpl; [|reflexivity].
  unfold messages_create, safe_load, ret, stop, remote_round.
  fold (sent rq w).
  destruct (service (requests w) rq) as [text|]; [|reflexivity].
  now destruct (yaml_safe_load (unwrap_response text)).
Qed.

Lemma select_bio_content_cases (cv : Doc) (w : World) :
  select_bio_content yaml_dump yaml_safe_load service cv w
  = if negb (anthropic_installed w) then (Exit 1, w)
    else if negb (truthy (ANTHROPIC_API_KEY w)) then (Exit 1, w)
    else remote_round yaml_safe_load service (bio_request yaml_dump cv) (fun _ v => v) w.
Proof. exact (client_round_cases (bio_request yaml_dump cv) w). Qed.

Lemma tailor_cv_cases (cv : Doc) (description_text : str) (w : World) :
  tailor_cv yaml_dump yaml_safe_load service cv description_text w
  = if negb (anthropic_installed w) then (Exit 1, w)
    else if negb (truthy (ANTHROPIC_API_KEY w)) then (Exit 1, w)
    else remote_round yaml_safe_load service
           (tailor_request yaml_dump cv description_text) (fun _ v => v) w.
Proof. exact (client_round_cases (tailor_request yaml_dump cv description_text) w). Qed.

(** A round with the remote service never exits, always sends its
    request, and touches the cache file only through [finish]. *)
Lemma remote_round_effects (rq : Request) (finish : Doc -> World -> World) (w : World) :
  let r := remote_round yaml_safe_load service rq finish w in
  (forall code, fst r <> Exit code)
  /\ (forall e, fst r = Raise e -> snd r = sent rq w)
  /\ (forall d, fst r = Return d -> snd r = finish d (sent rq w)).
Proof.
  unfold remote_round.
  destruct (service (requests w) rq) as [text|]; simpl.
  - destruct (yaml_safe_load (unwrap_response text)) as [d|]; simpl;
      repeat split; try discriminate; auto. now intros d' [= ->].
  - repeat split; try discriminate; auto.
Qed.

Lemma select_bio_content_keeps_cache (cv : Doc) (w : World) :
  cache_file (snd (select_bio_content yaml_dump yaml_safe_load service cv w))
  = cache_file w.
Proof.
  rewrite select_bio_content_cases.
  destruct (anthropic_installed w); [|reflexivity].
  destruct (truthy (ANTHROPIC_API_KEY w)); [|reflexivity].
  simpl negb. cbv iota. unfold remote_round.
  destruct (service (requests w) (bio_request yaml_dump cv)) as [text|]; [|reflexivity].
  now destruct (yaml_safe_load (unwrap_response text)).
Qed.

(** Every call of [translate_cv] leaves the environment as it was and
    sends at most its one request.  An exit has status 1 and changes
    nothing; a raised exception leaves the cache file as it was; a
    returned document was either read from the unchanged cache file or is
    the one whose dump the cache file now holds. *)
Theorem translate_cv_effects (cv : Doc) (retranslate : bool) (w : World) :
  let r := translate cv retranslate w in
  anthropic_installed (snd r) = anthropic_installed w
  /\ ANTHROPIC_API_KEY (snd r) = ANTHROPIC_API_KEY w
  /\ (requests (snd r) = requests w
      \/ requests (snd r) = requests w ++ [translate_request yaml_dump cv])
  /\ (forall code, fst r = Exit code -> code = 1%Z /\ snd r = w)
  /\ (forall e, fst r = Raise e -> cache_file (snd r) = cache_file w)
  /\ (forall d, fst r = Return d ->
        (snd r = w /\ exists text, cache_file w = Some text
                                   /\ yaml_safe_load text = Some d)
        \/ (cache_file (snd r) = Some (yaml_dump d)
            /\ requests (snd r) = requests w ++ [translate_request yaml_dump cv])).
Proof.
  cbv zeta. rewrite translate_cv_cases.
  assert (Hload : forall text, cache_file w = Some text ->
            let r := (loaded yaml_safe_load text, w) in
            anthropic_installed (snd r) = anthropic_installed w
            /\ ANTHROPIC_API_KEY (snd r) = ANTHROPIC_API_KEY w
            /\ (requests (snd r) = requests w
                \/ requests (snd r) = requests w ++ [translate_request yaml_dump cv])
            /\ (forall code, fst r = Exit code -> code = 1%Z /\ snd r = w)
            /\ (forall e, fst r = Raise e -> cache_file (snd r) = cache_file w)
            /\ (forall d, fst r = Return d ->
                  (snd r = w /\ exists text, cache_file w = Some text
                                             /\ yaml_safe_load text = Some d)
                  \/ (cache_file (snd r) = Some (yaml_dump d)
                      /\ requests (snd r)
                         = requests w ++ [translate_request yaml_dump cv]))).
  { intros text Hc. simpl. unfold loaded.
    destruct (yaml_safe_load text) as [d|] eqn:Hl; repeat split; auto;
      try (intros; discriminate).
    intros d' [= <-]. left. split; [reflexivity|]. now exists text. }
  assert (Hexit : let r := (@Exit Doc 1, w) in
            anthropic_installed (snd r) = anthropic_installed w
            /\ ANTHROPIC_API_KEY (snd r) = ANTHROPIC_API_KEY w
            /\ (requests (snd r) = requests w
                \/ requests (snd r) = requests w ++ [translate_request yaml_dump cv])
            /\ (forall code, fst r = Exit code -> code = 1%Z /\ snd r = w)
            /\ (forall e, fst r = Raise e -> cache_file (snd r) = cache_file w)
            /\ (forall d, fst r = Return d ->
                  (snd r = w /\ exists text, cache_file w = Some text
                                             /\ yaml_safe_load text = Some d)
                  \/ (cache_file (snd r) = Some (yaml_dump d)
                      /\ requests (snd r)
                         = requests w ++ [translate_request yaml_dump cv]))).
  { simpl. split; [reflexivity|]. split; [reflexivity|]. split; [now left|].
    split; [intros code [= <-]; now split|]. split; intros; discriminate. }
  assert (Hround : let r := remote_round yaml_safe_load service
                              (translate_request yaml_dump cv)
                              (fun d => set_cache (Some (yaml_dump d))) w in
            anthropic_installed (snd r) = anthropic_installed w
            /\ ANTHROPIC_API_KEY (snd r) = ANTHROPIC_API_KEY w
            /\ (requests (snd r) = requests w
                \/ requests (snd r) = requests w ++ [translate_request yaml_dump cv])
            /\ (forall code, fst r = Exit code -> code = 1%Z /\ snd r = w)
            /\ (forall e, fst r = Raise e -> cache_file (snd r) = cache_file w)
            /\ (forall d, fst r = Return d ->
                  (snd r = w /\ exists text, cache_file w = Some text
                                             /\ yaml_safe_load text = Some d)
                  \/ (cache_file (snd r) = Some (yaml_dump d)
                      /\ requests (snd r)
                         = requests w ++ [translate_request yaml_dump cv]))).
  { unfold remote_round.
    destruct (service (requests w) (translate_request yaml_dump cv)) as [text|]; simpl.
    - destruct (yaml_safe_load (unwrap_response text)) as [d|]; simpl;
        repeat split; auto; try (intros; discriminate).
      intros d' [= <-]. now right.
    - repeat split; auto; intros; discriminate. }
  destruct (cache_file w) as [text|] eqn:Hc; destruct retranslate;
    try (now apply (Hload text));
    destruct (anthropic_installed w); simpl negb; cbv iota; try exact Hexit;
    destruct (truthy (ANTHROPIC_API_KEY w)); simpl negb; cbv iota;
    try exact Hexit; try exact Hround; now apply (Hload text).
Qed.

(** Once [translate_cv] has returned a document whose dump reads back, a
    later request that accepts the cache returns that document, for any
    CV, and changes nothing. *)
Theorem translation_is_served_again
  (cv : Doc) (retranslate : bool) (w w' : World) (d : Doc) :
  translate cv retranslate w = (Return d, w') ->
  yaml_safe_load (yaml_dump d) = Some d ->
  forall later, translate later false w' = (Return d, w').
Proof.
  intros Hrun Hback later. rewrite translate_cv_cases in Hrun.
  assert (Hcache : exists text, cache_file w' = Some text
                                /\ yaml_safe_load text = Some d).
  { assert (Hload : forall text, cache_file w = Some text ->
              (loaded yaml_safe_load text, w) = (Return d, w') ->
              exists text, cache_file w' = Some text /\ yaml_safe_load text = Some d).
    { intros text Hc. unfold loaded.
      destruct (yaml_safe_load text) as [d'|] eqn:Hl; intros [= <- <-]. now exists text. }
    assert (Hround : remote_round yaml_safe_load service (translate_request yaml_dump cv)
                       (fun d => set_cache (Some (yaml_dump d))) w = (Return d, w') ->
              exists text, cache_file w' = Some text /\ yaml_safe_load text = Some d).
    { unfold remote_round.
      destruct (service (requests w) (translate_request yaml_dump cv)) as [text|];
        [|discriminate].
      destruct (yaml_safe_load (unwrap_response text)) as [d'|]; [|discriminate].
      intros [= <- <-]. now exists (yaml_dump d'). }
    destruct (cache_file w) as [text|] eqn:Hc; destruct retranslate;
      try (now apply (Hload text));
      destruct (anthropic_installed w); simpl in Hrun; try discriminate;
      destruct (truthy (ANTHROPIC_API_KEY w)); simpl in Hrun; try discriminate;
      try (now apply Hround); now apply (Hload text). }
  destruct Hcache as [text [Hc Hl]].
  rewrite (@translate_from_cache Doc yaml_dump yaml_safe_load service later w' text Hc).
  unfold loaded. now rewrite Hl.
Qed.

(** The remote bio selection never touches the cache file.  Without the
    client library or without a credential it exits with status 1 and
    sends nothing; with both it sends its one request, whatever comes of
    it, and does not exit. *)
Theorem select_bio_content_effects (cv : Doc) (w : World) :
  let r := select_bio_content yaml_dump yaml_safe_load service cv w in
  cache_file (snd r) = cache_file w
  /\ (anthropic_installed w = false \/ truthy (ANTHROPIC_API_KEY w) = false ->
      r = (Exit 1, w))
  /\ (anthropic_installed w = true -> truthy (ANTHROPIC_API_KEY w) = true ->
      snd r = sent (bio_request yaml_dump cv) w /\ forall code, fst r <> Exit code).
Proof.
  cbv zeta. rewrite select_bio_content_cases.
  pose proof (remote_round_effects (bio_request yaml_dump cv) (fun _ v => v) w) as Hr.
  cbv zeta in Hr. destruct Hr as [Hne [Hraise Hreturn]].
  destruct (anthropic_installed w); simpl negb; cbv iota.
  - destruct (truthy (ANTHROPIC_API_KEY w)); simpl negb; cbv iota.
    + assert (Hs : snd (remote_round yaml_safe_load service (bio_request yaml_dump cv)
                          (fun _ v => v) w) = sent (bio_request yaml_dump cv) w).
      { destruct (fst (remote_round yaml_safe_load service (bio_request yaml_dump cv)
                         (fun _ v => v) w)) as [d|e|c] eqn:Hf.
        - exact (Hreturn d eq_refl).
        - exact (Hraise e eq_refl).
        - destruct (Hne c eq_refl). }
      split; [now rewrite Hs|]. split; [intros [H|H]; discriminate|].
      intros _ _. split; [exact Hs | exact Hne].
    + split; [reflexivity|]. split; [reflexivity | discriminate].
  - split; [reflexivity|]. split; [reflexivity | discriminate].
Qed.

Lemma str_eqb_neq (a b : str) : a <> b -> str_eqb a b = false.
Proof. intros H. unfold str_eqb. now destruct (list_eq_dec N.eq_dec a b). Qed.

(** The deterministic selection as the bio command runs it. *)
Lemma bio_without_credential (lang : str) (cv_en : Doc) (w : World) :
  truthy (ANTHROPIC_API_KEY w) = false ->
  run_bio lang cv_en w
  = match select_bio_content_deterministic (as_cv cv_en) with
    | Return b =>
        if str_eqb lang (py "de") then translate (bio_dict b) true w
        else (Return (bio_dict b), w)
    | Raise e => (Raise e, w)
    | Exit code => (Exit code, w)
    end.
Proof.
  intros Hk. unfold bio. rewrite Hk. unfold bindM, stop.
  destruct (select_bio_content_deterministic (as_cv cv_en)); simpl; try reflexivity.
  now destruct (str_eqb lang (py "de")).
Qed.

(** A bio in a language other than German never touches the cache file;
    without a credential it sends nothing either and is the deterministic
    selection, or the [KeyError] that selection raises. *)
Theorem bio_in_other_language (lang : str) (cv_en : Doc) (w : World) :
  lang <> py "de" ->
  cache_file (snd (run_bio lang cv_en w)) = cache_file w
  /\ (truthy (ANTHROPIC_API_KEY w) = false ->
      snd (run_bio lang cv_en w) = w
      /\ forall b, select_bio_content_deterministic (as_cv cv_en) = Return b ->
                   fst (run_bio lang cv_en w) = Return (bio_dict b)).
Proof.
  intros Hlang. apply str_eqb_neq in Hlang.
  destruct (truthy (ANTHROPIC_API_KEY w)) eqn:Hk.
  - split; [|discriminate].
    unfold bio. rewrite Hk, Hlang. unfold bindM.
    pose proof (select_bio_content_keeps_cache cv_en w) as Hc.
    destruct (select_bio_content yaml_dump yaml_safe_load service cv_en w)
      as [[d|e|c] w']; exact Hc.
  - rewrite bio_without_credential by assumption. rewrite Hlang.
    destruct (select_bio_content_deterministic (as_cv cv_en)) as [b|e|c]; simpl;
      split; try reflexivity; intros _; split; try reflexivity;
      try (intros ? [= <-]; reflexivity); intros; discriminate.
Qed.

(** Without a credential the German bio is not a bio: where the
    deterministic selection returns, the client library can be imported
    and a cache file exists, the command hands the renderer what the cache
    file holds, whatever the CV; without the library or without a cache
    file it exits with status 1.  Nothing is sent in either case. *)
Theorem german_bio_without_credential (cv_en : Doc) (w : World) (b : BioData) :
  truthy (ANTHROPIC_API_KEY w) = false ->
  select_bio_content_deterministic (as_cv cv_en) = Return b ->
  (forall text, anthropic_installed w = true -> cache_file w = Some text ->
                run_bio (py "de") cv_en w = (loaded yaml_safe_load text, w))
  /\ (anthropic_installed w = false \/ cache_file w = None ->
      run_bio (py "de") cv_en w = (Exit 1, w)).
Proof.
  intros Hk Hsel. rewrite bio_without_credential by assumption. rewrite Hsel.
  change (str_eqb (py "de") (py "de")) with true. cbv iota.
  rewrite translate_cv_cases, Hk. simpl negb. split.
  - intros text Hi Hc. now rewrite Hi, Hc.
  - intros [Hi | Hc].
    + rewrite Hi. now destruct (cache_file w).
    + rewrite Hc. now destruct (anthropic_installed w).
Qed.

(** Building the English CV alone is local: the source goes to the
    renderer, nothing is sent and the cache file is not touched, also
    when a fresh translation is asked for.  Without a language both are
    built, English first, and with a cache file and no request for a
    fresh translation the German one is what the cache file holds. *)
Theorem build_english_and_default (retranslate : bool) (cv_en : Doc) (w : World) :
  run_build (Some (py "en")) retranslate cv_en w = (Return [(cv_en, py "en")], w)
  /\ run_build None retranslate cv_en w = run_build (Some []) retranslate cv_en w
  /\ run_build None retranslate cv_en w
     = (d <-- translate cv_en retranslate ;; ret [(cv_en, py "en"); (d, py "de")]) w
  /\ (forall text d,
        cache_file w = Some text -> yaml_safe_load text = Some d ->
        run_build None false cv_en w
        = (Return [(cv_en, py "en"); (d, py "de")], w)).
Proof.
  assert (Hdefault : run_build None retranslate cv_en w
            = (d <-- translate cv_en retranslate ;;
               ret [(cv_en, py "en"); (d, py "de")]) w).
  { unfold build. simpl do_build.
    change (str_eqb (py "en") (py "de")) with false.
    change (str_eqb (py "de") (py "de")) with true. cbv iota.
    unfold bindM, ret.
    destruct (translate cv_en retranslate w) as [[d|e|c] w']; reflexivity. }
  split; [reflexivity|]. split; [reflexivity|]. split; [exact Hdefault|].
  intros text d Hc Hl. unfold build. simpl do_build.
  change (str_eqb (py "en") (py "de")) with false.
  change (str_eqb (py "de") (py "de")) with true. cbv iota.
  unfold bindM, ret.
  rewrite (@translate_from_cache Doc yaml_dump yaml_safe_load service cv_en w text Hc).
  unfold loaded. now rewrite Hl.
Qed.

(** The tailor command exits with status 1, nothing sent and nothing
    changed, when the description file does not exist, when it holds
    nothing but whitespace, and when the client library or the credential
    is missing: there is no fallback, whatever the cache file holds. *)
Theorem tailor_exits_early (stem lang : str) (cv_en : Doc) (w : World) :
  run_tailor None stem lang cv_en w = (Exit 1, w)
  /\ (forall text, strip text = [] ->
                   run_tailor (Some text) stem lang cv_en w = (Exit 1, w))
  /\ (forall text,
        anthropic_installed w = false \/ truthy (ANTHROPIC_API_KEY w) = false ->
        run_tailor (Some text) stem lang cv_en w = (Exit 1, w)).
Proof.
  split; [reflexivity|]. split.
  - intros text H. unfold tailor. now rewrite H.
  - intros text H. unfold tailor. destruct (strip text) as [|c r]; [reflexivity|].
    unfold bindM at 1. rewrite tailor_cv_cases.
    destruct H as [-> | ->]; [reflexivity|]. now destruct (anthropic_installed w).
Qed.

(** A German tailoring that succeeds has sent two requests, the tailoring
    and the translation of the tailored CV, and leaves the cache file
    holding the dump of the translated tailored CV, so the next build that
    accepts the cache gets the tailored translation.  The file name
    carries the slug of the description file's stem. *)
Theorem german_tailoring_fills_the_cache
  (text stem : str) (cv_en : Doc) (w w' : World) (shown : Doc) (filename : str) :
  run_tailor (Some text) stem (py "de") cv_en w = (Return (shown, filename), w') ->
  cache_file w' = Some (yaml_dump shown)
  /\ (exists tailored,
        requests w' = requests w ++ [tailor_request yaml_dump cv_en (strip text);
                                     translate_request yaml_dump tailored])
  /\ filename = py "Fayssal_El_Mofatiche_CV_DE_tailored_"
                ++ _slugify alnum stem 30 ++ py ".docx"
  /\ (forall full_cv,
        translate full_cv false w' = (loaded yaml_safe_load (yaml_dump shown), w')).
Proof.
  unfold tailor. destruct (strip text) as [|c r] eqn:Hs; [discriminate|].
  change (str_eqb (py "de") (py "de")) with true. cbv iota.
  unfold bindM at 1. rewrite tailor_cv_cases.
  destruct (anthropic_installed w) eqn:Hi; simpl negb; cbv iota; [|discriminate].
  destruct (truthy (ANTHROPIC_API_KEY w)) eqn:Hk; simpl negb; cbv iota; [|discriminate].
  unfold remote_round at 1.
  destruct (service (requests w) (tailor_request yaml_dump cv_en (c :: r))) as [t1|];
    [|discriminate].
  destruct (yaml_safe_load (unwrap_response t1)) as [tailored|]; [|discriminate].
  unfold bindM at 1. rewrite translate_cv_cases.
  simpl anthropic_installed. simpl ANTHROPIC_API_KEY. rewrite Hi, Hk.
  simpl negb. cbv iota.
  assert (Hround : forall cache : option str,
            match cache, true with
            | Some text0, false => (loaded yaml_safe_load text0, sent (tailor_request yaml_dump cv_en (c :: r)) w)
            | _, _ =>
                remote_round yaml_safe_load service (translate_request yaml_dump tailored)
                  (fun d => set_cache (Some (yaml_dump d)))
                  (sent (tailor_request yaml_dump cv_en (c :: r)) w)
            end
            = remote_round yaml_safe_load service (translate_request yaml_dump tailored)
                (fun d => set_cache (Some (yaml_dump d)))
                (sent (tailor_request yaml_dump cv_en (c :: r)) w))
    by (intros [?|]; reflexivity).
  rewrite Hround. unfold remote_round.
  destruct (service (requests (sent (tailor_request yaml_dump cv_en (c :: r)) w))
              (translate_request yaml_dump tailored)) as [t2|]; [|discriminate].
  destruct (yaml_safe_load (unwrap_response t2)) as [translated|]; [|discriminate].
  unfold ret. intros [= <- <- <-].
  split; [reflexivity|]. split.
  - exists tailored. simpl. now rewrite <- app_assoc.
  - split; [reflexivity|]. intros full_cv. now apply translate_from_cache.
Qed.

(** The single-file cvserve.py and the package agree on a translation
    request, [use_cache] standing for the opposite of [retranslate],
    except where a fresh translation is asked for with the client library
    at hand, no credential set and a cache file present: there the
    single-file version exits and the package falls back to the cache. *)
Theorem legacy_and_package_translate (cv : Doc) (use_cache : bool) (w : World) :
  (truthy (ANTHROPIC_API_KEY w) = true \/ anthropic_installed w = false
   \/ cache_file w = None \/ use_cache = true ->
   legacy cv use_cache w = translate cv (negb use_cache) w)
  /\ (forall text,
        truthy (ANTHROPIC_API_KEY w) = false -> anthropic_installed w = true ->
        cache_file w = Some text -> use_cache = false ->
        legacy cv use_cache w = (Exit 1, w)
        /\ translate cv (negb use_cache) w = (loaded yaml_safe_load text, w)).
Proof.
  assert (E : legacy cv use_cache w
            = match cache_file w, use_cache with
              | Some text, true => load_cv_cache yaml_safe_load w
              | _, _ =>
                  if negb (anthropic_installed w) then (Exit 1, w)
                  else if negb (truthy (ANTHROPIC_API_KEY w)) then (Exit 1, w)
                  else translate cv true w
              end).
  { unfold legacy_translate_cv, translate_cv, cache_exists.
    destruct (cache_file w), use_cache, (anthropic_installed w),
      (truthy (ANTHROPIC_API_KEY w)); reflexivity. }
  assert (T : translate cv (negb use_cache) w
            = match cache_file w, use_cache with
              | Some text, true => load_cv_cache yaml_safe_load w
              | cache, _ =>
                  if negb (anthropic_installed w) then (Exit 1, w)
                  else if negb (truthy (ANTHROPIC_API_KEY w)) then
                    match cache with
                    | Some text => load_cv_cache yaml_safe_load w
                    | None => (Exit 1, w)
                    end
                  else translate cv true w
              end).
  { unfold translate_cv, cache_exists.
    destruct (cache_file w), use_cache, (anthropic_installed w),
      (truthy (ANTHROPIC_API_KEY w)); reflexivity. }
  rewrite E, T. split.
  - intros [Hk | [Hi | [Hc | Hu]]].
    + rewrite Hk. now destruct (cache_file w), use_cache, (anthropic_installed w).
    + rewrite Hi. now destruct (cache_file w), use_cache.
    + rewrite Hc. now destruct use_cache, (anthropic_installed w),
        (truthy (ANTHROPIC_API_KEY w)).
    + rewrite Hu. now destruct (cache_file w).
  - intros text Hk Hi Hc Hu. rewrite Hk, Hi, Hc, Hu. simpl. split; [reflexivity|].
    now apply load_cv_cache_loaded.
Qed.

End PipelineFacts.

(** ** The slug of a file name *)

Section SlugFacts.

Variable alnum : char -> bool.

Lemma single_underscores_cons (x y : char) (r : str) :
  single_underscores (x :: y :: r)
  = negb ((x =? underscore)%N && (y =? underscore)%N) && single_underscores (y :: r).
Proof. reflexivity. Qed.

Lemma single_underscores_app (a b : str) :
  single_underscores (a ++ b) = true ->
  single_underscores a = true /\ single_underscores b = true.
Proof.
  induction a as [|x a IH]; simpl app; intros H; [now split|].
  destruct a as [|y a].
  - split; [reflexivity|]. destruct b as [|z b]; [reflexivity|].
    simpl app in H. rewrite single_underscores_cons in H.
    now apply andb_prop in H as [_ H].
  - simpl app in *. rewrite single_underscores_cons in H |- *.
    apply andb_prop in H as [H1 H2]. destruct (IH H2) as [Ha Hb].
    split; [now rewrite H1, Ha | exact Hb].
Qed.

(** Collapsing the runs leaves slug characters only, no underscore next to
    another, and no underscore in front after a run. *)
Lemma underscore_runs_shape (text : str) :
  Forall (fun c => (word alnum c || isspace c || (c =? hyphen)%N) = true) text ->
  forall in_run,
    Forall (slug_char alnum) (underscore_runs in_run text)
    /\ single_underscores (underscore_runs in_run text) = true
    /\ (in_run = true -> hd_error (underscore_runs in_run text) <> Some underscore).
Proof.
  induction 1 as [|c r Hc _ IH]; intros in_run; simpl.
  - repeat split; [constructor | discriminate].
  - destruct (isspace c || (c =? underscore)%N) eqn:E.
    + destruct in_run.
      * apply IH.
      * destruct (IH true) as [H1 [H2 H3]]. split; [|split; [|discriminate]].
        -- constructor; [|exact H1]. split; [reflexivity|].
           unfold underscore. rewrite N.eqb_refl. now rewrite orb_true_r.
        -- destruct (underscore_runs true r) as [|y o] eqn:Ho; [reflexivity|].
           rewrite single_underscores_cons, H2, andb_true_r.
           destruct (N.eqb_spec y underscore) as [->|_]; [|now rewrite andb_false_r].
           exfalso. now apply H3.
    + apply orb_false_elim in E as [Es Eu].
      destruct (IH false) as [H1 [H2 _]]. split; [|split].
      * constructor; [|exact H1]. split; [exact Es|].
        unfold word in Hc. rewrite Es, orb_false_r in Hc. exact Hc.
      * destruct (underscore_runs false r) as [|y o]; [reflexivity|].
        now rewrite single_underscores_cons, Eu, H2.
      * intros _ [= ->]. unfold underscore in Eu. now rewrite N.eqb_refl in Eu.
Qed.

Lemma lstrip_underscores_suffix (s : str) :
  (exists p, s = p ++ lstrip_underscores s)
  /\ hd_error (lstrip_underscores s) <> Some underscore.
Proof.
  induction s as [|c r [[p Hp] Hh]]; simpl.
  - split; [now exists [] | discriminate].
  - destruct (N.eqb_spec c underscore) as [->|Hne].
    + split; [|exact Hh]. exists (underscore :: p). simpl. now f_equal.
    + split; [now exists []|]. simpl. congruence.
Qed.

(** Stripping the underscores leaves a part of the text that does not
    begin with one. *)
Lemma strip_underscores_part (s : str) :
  (exists p q, s = p ++ strip_underscores s ++ q)
  /\ hd_error (strip_underscores s) <> Some underscore.
Proof.
  unfold strip_underscores.
  destruct (lstrip_underscores_suffix s) as [[p Hp] Hh].
  destruct (lstrip_underscores_suffix (rev (lstrip_underscores s))) as [[q Hq] _].
  assert (Hl : lstrip_underscores s
               = rev (lstrip_underscores (rev (lstrip_underscores s))) ++ rev q).
  { rewrite <- rev_app_distr, <- Hq. now rewrite rev_involutive. }
  split.
  - exists p, (rev q). now rewrite <- Hl.
  - destruct (rev (lstrip_underscores (rev (lstrip_underscores s)))) as [|c o] eqn:Ho;
      [discriminate|].
    rewrite Hl in Hh. exact Hh.
Qed.

Lemma slice_to_prefix {A : Type} (l : list A) (n : Z) :
  exists rest, l = slice_to l n ++ rest.
Proof.
  unfold slice_to. destruct (n <? 0)%Z; eexists; symmetry; apply firstn_skipn.
Qed.

Lemma slice_to_length {A : Type} (l : list A) (n : Z) :
  (0 <= n)%Z -> (List.length (slice_to l n) <= Z.to_nat n)%nat.
Proof.
  intros Hn. unfold slice_to. destruct (Z.ltb_spec n 0); [lia|].
  rewrite length_firstn. lia.
Qed.

(** A slug is safe in a file name: it is no longer than the bound it was
    given, it is made of alphanumeric characters, hyphens and underscores
    only, without whitespace, no two underscores stand side by side, and
    it does not begin with an underscore. *)
Theorem slug_is_safe (text : str) (max_len : Z) :
  let slug := _slugify alnum text max_len in
  ((0 <= max_len)%Z -> (List.length slug <= Z.to_nat max_len)%nat)
  /\ Forall (slug_char alnum) slug
  /\ single_underscores slug = true
  /\ hd_error slug <> Some underscore.
Proof.
  cbv zeta. unfold _slugify.
  set (kept := drop_punctuation alnum (lower text)).
  assert (Hkept : Forall (fun c => (word alnum c || isspace c || (c =? hyphen)%N) = true)
                    kept).
  { unfold kept, drop_punctuation. apply Forall_forall. intros c Hc.
    now apply filter_In in Hc as [_ Hc]. }
  destruct (underscore_runs_shape Hkept false) as [Hall [Hsingle _]].
  destruct (strip_underscores_part (underscore_runs false kept)) as [[p [q Hpq]] Hhead].
  set (stripped := strip_underscores (underscore_runs false kept)) in *.
  destruct (slice_to_prefix stripped max_len) as [rest Hrest].
  assert (Hall' : Forall (slug_char alnum) stripped).
  { rewrite Hpq in Hall. apply Forall_app in Hall as [_ Hall].
    now apply Forall_app in Hall as [Hall _]. }
  assert (Hsingle' : single_underscores stripped = true).
  { rewrite Hpq in Hsingle. apply single_underscores_app in Hsingle as [_ Hsingle].
    now apply single_underscores_app in Hsingle as [Hsingle _]. }
  split; [now apply slice_to_length|]. split; [|split].
  - rewrite Hrest in Hall'. now apply Forall_app in Hall' as [Hall' _].
  - rewrite Hrest in Hsingle'. now apply single_underscores_app in Hsingle' as [H _].
  - destruct (slice_to stripped max_len) as [|c o] eqn:Hs; [discriminate|].
    rewrite Hrest in Hhead. exact Hhead.
Qed.

End SlugFacts.

Lemma slug_is_safe_witness :
  _slugify ascii_alnum (py "My Project: v2 (final)!") 30 = py "my_project_v2_final"
  /\ (List.length (_slugify ascii_alnum (py "My Project: v2 (final)!") 30) <= 30)%nat.
Proof.
  split; [vm_compute; reflexivity|].
  refine (proj1 (slug_is_safe ascii_alnum (py "My Project: v2 (final)!") 30) _).
  lia.
Defined.

(** ** What unwrapping keeps *)

Lemma lstrip_suffix (s : str) : exists p, s = p ++ lstrip s.
Proof.
  induction s as [|c r [p Hp]]; simpl; [now exists []|].
  destruct (isspace c); [|now exists []].
  exists (c :: p). simpl. now f_equal.
Qed.

Lemma strip_part (s : str) : exists p q, s = p ++ strip s ++ q.
Proof.
  unfold strip, rstrip.
  destruct (lstrip_suffix s) as [p Hp].
  destruct (lstrip_suffix (rev (lstrip s))) as [q Hq].
  exists p, (rev q). rewrite <- rev_app_distr, <- Hq, rev_involutive. exact Hp.
Qed.

Lemma join_last (sep : str) (pieces : list str) (z : str) :
  join sep (pieces ++ [z])
  = join sep pieces ++ match pieces with [] => z | _ => sep ++ z end.
Proof.
  induction pieces as [|x [|y r] IH]; [reflexivity | reflexivity |].
  change (join sep ((x :: y :: r) ++ [z])) with (x ++ sep ++ join sep ((y :: r) ++ [z])).
  rewrite IH. change (join sep (x :: y :: r)) with (x ++ sep ++ join sep (y :: r)).
  now rewrite <- !app_assoc.
Qed.

Lemma drop_leading_fence_suffix (t : str) : exists p, t = p ++ drop_leading_fence t.
Proof.
  unfold drop_leading_fence. destruct (startswith t fence); [|now exists []].
  assert (Hj : join nl (split t nl) = t) by (apply join_split; discriminate).
  destruct (split t nl) as [|x [|y r]].
  - exists t. simpl. now rewrite app_nil_r.
  - exists t. simpl. now rewrite app_nil_r.
  - exists (x ++ nl). simpl tl. rewrite <- Hj. simpl join. now rewrite <- app_assoc.
Qed.

Lemma drop_trailing_fence_prefix (t : str) : exists q, t = drop_trailing_fence t ++ q.
Proof.
  unfold drop_trailing_fence. destruct (endswith t fence);
    [|exists []; now rewrite app_nil_r].
  assert (Hj : join nl (split t nl) = t) by (apply join_split; discriminate).
  assert (Hne : split t nl <> []) by apply split_from_nonempty.
  rewrite (app_removelast_last [] Hne) in Hj at 1.
  rewrite join_last in Hj. eexists. symmetry. exact Hj.
Qed.

(** Unwrapping invents nothing: what it returns is a part of the
    response, with text cut off in front and behind only. *)
Theorem unwrap_response_is_a_part (text : str) :
  exists before after, text = before ++ unwrap_response text ++ after.
Proof.
  unfold unwrap_response.
  destruct (strip_part text) as [p [q Hs]].
  destruct (drop_leading_fence_suffix (strip text)) as [p' Hl].
  destruct (drop_trailing_fence_prefix (drop_leading_fence (strip text))) as [q' Ht].
  exists (p ++ p'), (q' ++ q).
  rewrite Hs at 1. rewrite Hl at 1. rewrite Ht at 1.
  now rewrite <- !app_assoc.
Qed.

(** ** The commands on sample worlds *)

Lemma translate_cv_effects_witness :
  let w := sample_world true (Some (py "key")) (Some (py "cv: DE, old")) in
  let r := translate_cv sample_dump sample_load sample_service (py "cv: EN") true w in
  fst r = Return (py "bio: DE")
  /\ anthropic_installed (snd r) = true
  /\ ANTHROPIC_API_KEY (snd r) = Some (py "key").
Proof.
  intros w r. split; [vm_compute; reflexivity|].
  destruct (@translate_cv_effects str sample_dump sample_load sample_service
              (py "cv: EN") true w) as [Hi [Hk _]].
  split; [exact Hi | exact Hk].
Defined.

Lemma translation_is_served_again_witness :
  let w := sample_world true (Some (py "key")) None in
  let w' := {| anthropic_installed := true;
               ANTHROPIC_API_KEY := Some (py "key");
               cache_file := Some (py "bio: DE");
               requests := [translate_request sample_dump (py "cv: EN")] |} in
  translate_cv sample_dump sample_load sample_service (py "cv: EN") false w
  = (Return (py "bio: DE"), w')
  /\ translate_cv sample_dump sample_load sample_service (py "cv: EN, edited") false w'
     = (Return (py "bio: DE"), w').
Proof.
  intros w w'.
  assert (Hrun : translate_cv sample_dump sample_load sample_service (py "cv: EN") false w
                 = (Return (py "bio: DE"), w')) by (vm_compute; reflexivity).
  split; [exact Hrun|].
  exact (@translation_is_served_again str sample_dump sample_load sample_service
           (py "cv: EN") false w w' (py "bio: DE") Hrun eq_refl (py "cv: EN, edited")).
Defined.

Lemma select_bio_content_effects_witness :
  let w := sample_world true None (Some (py "cv: DE, old")) in
  select_bio_content sample_dump sample_load sample_service (py "cv: EN") w = (Exit 1, w).
Proof.
  intros w.
  exact (proj1 (proj2 (@select_bio_content_effects str sample_dump sample_load
                         sample_service (py "cv: EN") w))
           (or_intror eq_refl)).
Defined.

Lemma bio_in_other_language_witness :
  let w := sample_world true None (Some (py "cv: DE, old")) in
  snd (bio sample_dump sample_load sample_service (fun _ => mk_cv None None) name
         (py "en") (py "cv: EN") w) = w.
Proof.
  intros w.
  assert (Hlang : py "en" <> py "de") by (vm_compute; discriminate).
  exact (proj1 (proj2 (@bio_in_other_language str sample_dump sample_load sample_service
                         (fun _ => mk_cv None None) name (py "en") (py "cv: EN") w Hlang)
                  eq_refl)).
Defined.

Lemma german_bio_without_credential_witness :
  let w := sample_world true None (Some (py "cv: DE, old")) in
  bio sample_dump sample_load sample_service (fun _ => mk_cv None None) name
    (py "de") (py "cv: EN") w
  = (Return (py "cv: DE, old"), w).
Proof.
  intros w.
  refine (proj1 (@german_bio_without_credential str sample_dump sample_load sample_service
                   (fun _ => mk_cv None None) name (py "cv: EN") w _ eq_refl _)
            (py "cv: DE, old") eq_refl eq_refl).
  vm_compute. reflexivity.
Defined.

Lemma build_english_and_default_witness :
  let w := sample_world true None (Some (py "cv: DE, old")) in
  build sample_dump sample_load sample_service None false (py "cv: EN") w
  = (Return [(py "cv: EN", py "en"); (py "cv: DE, old", py "de")], w).
Proof.
  intros w.
  exact (proj2 (proj2 (proj2 (@build_english_and_default str sample_dump sample_load
                                sample_service false (py "cv: EN") w)))
           (py "cv: DE, old") (py "cv: DE, old") eq_refl eq_refl).
Defined.

Lemma tailor_exits_early_witness :
  let w := sample_world true (Some (py "key")) (Some (py "cv: DE, old")) in
  tailor sample_dump sample_load sample_service ascii_alnum (Some (nl ++ py "  "))
    (py "job") (py "de") (py "cv: EN") w
  = (Exit 1, w).
Proof.
  intros w.
  exact (proj1 (proj2 (@tailor_exits_early str sample_dump sample_load sample_service
                         ascii_alnum (py "job") (py "de") (py "cv: EN") w))
           (nl ++ py "  ") eq_refl).
Defined.

Lemma german_tailoring_fills_the_cache_witness :
  let w := sample_world true (Some (py "key")) None in
  exists w',
    tailor sample_dump sample_load sample_service ascii_alnum
      (Some (py " Data lead, Berlin ")) (py "Job Ad (Berlin)") (py "de") (py "cv: EN") w
    = (Return (py "bio: DE",
               py "Fayssal_El_Mofatiche_CV_DE_tailored_job_ad_berlin.docx"), w')
    /\ cache_file w' = Some (py "bio: DE")
    /\ translate_cv sample_dump sample_load sample_service (py "cv: EN") false w'
       = (Return (py "bio: DE"), w').
Proof.
  intros w.
  assert (H : exists w',
             tailor sample_dump sample_load sample_service ascii_alnum
               (Some (py " Data lead, Berlin ")) (py "Job Ad (Berlin)") (py "de")
               (py "cv: EN") w
             = (Return (py "bio: DE",
                        py "Fayssal_El_Mofatiche_CV_DE_tailored_job_ad_berlin.docx"), w'))
    by (vm_compute; eexists; reflexivity).
  destruct H as [w' Hrun]. exists w'. split; [exact Hrun|].
  destruct (@german_tailoring_fills_the_cache str sample_dump sample_load sample_service
              ascii_alnum (py " Data lead, Berlin ") (py "Job Ad (Berlin)") (py "cv: EN")
              w w' (py "bio: DE")
              (py "Fayssal_El_Mofatiche_CV_DE_tailored_job_ad_berlin.docx") Hrun)
    as [Hcache [_ [_ Hserved]]].
  split; [exact Hcache | exact (Hserved (py "cv: EN"))].
Defined.

Lemma legacy_and_package_translate_witness :
  let w := sample_world true None (Some (py "cv: DE, old")) in
  legacy_translate_cv sample_dump sample_load sample_service (py "cv: EN") false w
  = (Exit 1, w)
  /\ translate_cv sample_dump sample_load sample_service (py "cv: EN") true w
     = (Return (py "cv: DE, old"), w).
Proof.
  intros w.
  exact (proj2 (@legacy_and_package_translate str sample_dump sample_load sample_service
                  (py "cv: EN") false w)
           (py "cv: DE, old") eq_refl eq_refl eq_refl eq_refl).
Defined.
